(** * configService: a shallow embedding of the layered configuration loader

    The development follows the two Go files of the package:
    - the binder and the load pipeline ([getConfigurationFiles],
      [processFile], [processTags], [processInitTags], [load], [init]);
    - the facade ([New], [GetEnvironment], [Load], [Init]).

    Go values reached through [reflect] are modelled by the inductive
    [value], their static types by [type]: booleans, strings, integers,
    structs, slices and pointers (maps, floats and interfaces are left
    out).  The format decoders (gopkg.in/yaml.v2, BurntSushi/toml,
    encoding/json) are collaborators outside the package: they are Section
    variables.  The process environment and the file system are finite
    maps.  Strings are byte strings and case mapping is that of ASCII:
    this is [strings.ToUpper] and [strings.ToLower] on names and values
    whose bytes are all below 128; names with other letters are outside
    the model.
    Calls mutate the record behind a pointer and return an error: a call
    is modelled by the record it leaves and the error, see [result]. *)

From Stdlib Require Import ZArith Ascii String DecimalString.
From stdpp Require Import gmap strings list fin_maps.

Set Warnings "-register-all".

(** ** Byte strings: the pieces of [strings], [path] and [fmt] the code uses *)

Module Str.

(** [strings.ToUpper] / [strings.ToLower] on ASCII: bytes outside
    [a-z] / [A-Z] are left as they are.  The functions of the source map
    the letters beyond ASCII as well (Unicode case mapping on the decoded
    runes); the two agree on every string without a byte above 127. *)
Definition upper_byte (c : ascii) : ascii :=
  let n := nat_of_ascii c in
  if (97 <=? n)%nat && (n <=? 122)%nat then ascii_of_nat (n - 32) else c.

Definition lower_byte (c : ascii) : ascii :=
  let n := nat_of_ascii c in
  if (65 <=? n)%nat && (n <=? 90)%nat then ascii_of_nat (n + 32) else c.

Fixpoint ToUpper (s : string) : string :=
  match s with
  | EmptyString => EmptyString
  | String c r => String (upper_byte c) (ToUpper r)
  end.

Fixpoint ToLower (s : string) : string :=
  match s with
  | EmptyString => EmptyString
  | String c r => String (lower_byte c) (ToLower r)
  end.

(** [strings.Join(elems, sep)] *)
Definition Join (elems : list string) (sep : string) : string :=
  String.concat sep elems.

(** [strings.HasSuffix] *)
Definition HasSuffix (s suffix : string) : bool :=
  let n := String.length s in
  let k := String.length suffix in
  (k <=? n)%nat && String.eqb (String.substring (n - k) k s) suffix.

(** [strings.TrimSuffix] *)
Definition TrimSuffix (s suffix : string) : string :=
  if HasSuffix s suffix
  then String.substring 0 (String.length s - String.length suffix) s
  else s.

(** [strings.Contains] *)
Fixpoint Contains (s substr : string) : bool :=
  String.prefix substr s ||
  match s with
  | EmptyString => false
  | String _ r => Contains r substr
  end.

(** [path.Ext]: the scan runs from the last byte towards the first and
    stops at a slash; [seen] is the part already walked over. *)
Fixpoint ext_scan (rev_prefix : list ascii) (seen : string) : string :=
  match rev_prefix with
  | [] => ""
  | c :: r =>
      if Ascii.eqb c "/" then ""
      else if Ascii.eqb c "." then String c seen
      else ext_scan r (String c seen)
  end.

Definition Ext (path : string) : string :=
  ext_scan (rev (list_ascii_of_string path)) "".

(** [fmt.Sprint] of a non-negative int *)
Definition Sprint (i : nat) : string :=
  NilEmpty.string_of_uint (Nat.to_uint i).

End Str.

(** ** Types and values seen through reflection *)

(** [reflect.StructField]: the name, the tag as key/value pairs, the
    embedded-field flag, and whether the field is exported (a field reached
    through an unexported name is read-only: [CanInterface] is false). *)
Record StructField := {
  Name : string;
  Tag : list (string * string);
  Anonymous : bool;
  Exported : bool
}.

(** [StructTag.Get]: the value of the first pair with that key, else [""] *)
Fixpoint Get (tag : list (string * string)) (key : string) : string :=
  match tag with
  | [] => ""
  | (k, v) :: r => if String.eqb k key then v else Get r key
  end.

(** The kinds the binder tells apart: [TInt] stands for the kinds that
    reach the [default:] arm of the conversion switch as plain scalars. *)
Inductive type :=
| TBool
| TString
| TInt
| TStruct (fields : list (StructField * type))
| TSlice (elem : type)
| TPtr (elem : type).

(** A nil slice and an empty one are different values for
    [reflect.DeepEqual]; a pointer owns its target. *)
Inductive value :=
| VBool (b : bool)
| VString (s : string)
| VInt (z : Z)
| VStruct (fields : list value)
| VSlice (elems : option (list value))
| VPtr (target : option value).

Inductive Kind := Invalid | Bool | Int | String_ | Struct | Slice | Ptr.

(** A [reflect.Value] is [None] when it is the zero Value, as obtained
    from [Elem] of a nil pointer. *)
Definition KindOf (v : option value) : Kind :=
  match v with
  | None => Invalid
  | Some (VBool _) => Bool
  | Some (VString _) => String_
  | Some (VInt _) => Int
  | Some (VStruct _) => Struct
  | Some (VSlice _) => Slice
  | Some (VPtr _) => Ptr
  end.

(** [reflect.Indirect] *)
Definition Indirect (v : value) : option value :=
  match v with
  | VPtr target => target
  | _ => Some v
  end.

(** [reflect.Zero(t)] *)
Fixpoint Zero (t : type) : value :=
  match t with
  | TBool => VBool false
  | TString => VString ""
  | TInt => VInt 0
  | TStruct fields => VStruct (map (fun ft => Zero (snd ft)) fields)
  | TSlice _ => VSlice None
  | TPtr _ => VPtr None
  end.

(** [Type.Elem()], used on slice and pointer types only *)
Definition Elem (t : type) : type :=
  match t with
  | TSlice e => e
  | TPtr e => e
  | _ => t
  end.

Definition Fields (t : type) : list (StructField * type) :=
  match t with
  | TStruct fields => fields
  | _ => []
  end.

(** [reflect.DeepEqual] on the modelled values *)
Fixpoint DeepEqual (a b : value) {struct a} : bool :=
  let fix all2 (xs ys : list value) {struct xs} : bool :=
    match xs, ys with
    | [], [] => true
    | x :: xs', y :: ys' => DeepEqual x y && all2 xs' ys'
    | _, _ => false
    end in
  match a, b with
  | VBool x, VBool y => Bool.eqb x y
  | VString x, VString y => String.eqb x y
  | VInt x, VInt y => Z.eqb x y
  | VStruct xs, VStruct ys => all2 xs ys
  | VSlice None, VSlice None => true
  | VSlice (Some xs), VSlice (Some ys) => all2 xs ys
  | VPtr None, VPtr None => true
  | VPtr (Some x), VPtr (Some y) => DeepEqual x y
  | _, _ => false
  end.

(** [len] and [append] on a slice value *)
Definition Len (elems : option (list value)) : nat :=
  match elems with
  | None => 0
  | Some l => length l
  end.

Definition Append (elems : option (list value)) (v : value) : option (list value) :=
  match elems with
  | None => Some [v]
  | Some l => Some (l ++ [v])
  end.

(** ** Errors *)

(** A [*yaml.TypeError] collects one message per offending node; the
    decoder reports an unknown field (strict mode only), a duplicate key
    (strict mode only) or a value that does not fit the field's type. *)
Inductive yaml_issue :=
| FieldNotFound (key : string)
| KeyAlreadySet (key : string)
| CannotUnmarshal (detail : string).

Inductive yaml_error :=
| YamlTypeError (issues : list yaml_issue)
| YamlSyntaxError (msg : string).

Inductive error :=
| ErrInvalidConfig                       (* "invalid config, should be struct" *)
| ErrRequired (field : string)           (* field + " is required, but blank" *)
| ErrYaml (e : yaml_error)
| ErrUnmatchedTomlKeys (keys : list string)  (* *UnmatchedTomlKeysError *)
| ErrToml (msg : string)
| ErrJSON (msg : string)
| ErrDecode                              (* "failed to decode config" *)
| ErrReadFile (file : string)
| ErrNotAddressable.                     (* "Config %v should be addressable" *)

(** The text of the errors the package builds itself *)
Definition required_message (field : string) : string :=
  field ++ " is required, but blank".

(** What a call leaves behind: the record as mutated in place together
    with the returned error, or a run-time panic, or no answer within the
    step budget of the model. *)
Inductive result (A : Type) :=
| Ret (a : A) (err : option error)
| Panic
| OutOfFuel.
Arguments Ret {A} a err.
Arguments Panic {A}.
Arguments OutOfFuel {A}.

Definition mapRet {A B} (f : A -> B) (r : result A) : result B :=
  match r with
  | Ret a e => Ret (f a) e
  | Panic => Panic
  | OutOfFuel => OutOfFuel
  end.

(** Continue with [k] unless [r] already returned an error. *)
Definition andThen {A} (r : result A) (k : A -> result A) : result A :=
  match r with
  | Ret a None => k a
  | _ => r
  end.

(** ** The field binder: [processTags] and [processInitTags] *)

(** The two functions of the source are the same text except for the
    [else if ... "required"] arm, which only [processTags] has.  The model
    shares the text and takes the variant as a parameter. *)
Inductive binder := Full | InitOnly.

(** [getPrefixForStruct] *)
Definition getPrefixForStruct (prefixes : list string) (fieldStruct : StructField)
  : list string :=
  if Anonymous fieldStruct && String.eqb (Get (Tag fieldStruct) "anonymous") "true"
  then prefixes
  else prefixes ++ [Name fieldStruct].

(** The candidate variable names of a field (source lines 210-215) *)
Definition envNames (prefixes : list string) (fieldStruct : StructField) : list string :=
  let envName := Get (Tag fieldStruct) "env" in
  if String.eqb envName ""
  then [Str.Join (prefixes ++ [Name fieldStruct]) "_";
        Str.ToUpper (Str.Join (prefixes ++ [Name fieldStruct]) "_")]
  else [envName].

(** The inner switch of the boolean arm (lines 230-235) *)
Definition boolOfEnv (value : string) : bool :=
  let lowered := Str.ToLower value in
  if String.eqb lowered "" || String.eqb lowered "0"
     || String.eqb lowered "f" || String.eqb lowered "false"
  then false
  else true.

(** [field.Set(reflect.ValueOf(x))]: the assignment panics unless the
    field's own type is the type of [x]; a field of pointer type whose
    target is a bool or a string reaches these arms and panics. *)
Definition SetBool (field : value) (b : bool) : result value :=
  match field with
  | VBool _ => Ret (VBool b) None
  | _ => Panic
  end.

Definition SetString (field : value) (s : string) : result value :=
  match field with
  | VString _ => Ret (VString s) None
  | _ => Panic
  end.

Section Binder.

(** [yaml.Unmarshal(data, &field)]: the field as the decoder leaves it
    and the decoder's error *)
Variable yaml_Unmarshal : string -> type -> value -> value * option yaml_error.

(** [os.Getenv] *)
Variable Getenv : string -> string.

Definition unmarshalField (data : string) (t : type) (field : value) : result value :=
  let '(field', err) := yaml_Unmarshal data t field in
  Ret field' (ErrYaml <$> err).

(** "Load From Shell ENV" (lines 222-245): the first name whose value
    is not empty converts into the field and ends the loop. *)
Fixpoint loadFromEnv (names : list string) (t : type) (field : value) : result value :=
  match names with
  | [] => Ret field None
  | env :: names' =>
      let value := Getenv env in
      if negb (String.eqb value "") then
        match KindOf (Indirect field) with
        | Bool => SetBool field (boolOfEnv value)
        | String_ => SetString field value
        | _ => unmarshalField value t field
        end
      else loadFromEnv names' t field
  end.

(** The blank check (lines 247-257; 452-459 for the init variant) *)
Definition applyDefault (b : binder) (fieldStruct : StructField) (t : type)
    (field : value) : result value :=
  if DeepEqual field (Zero t) then
    let value := Get (Tag fieldStruct) "default" in
    if negb (String.eqb value "") then unmarshalField value t field
    else
      match b with
      | Full =>
          if String.eqb (Get (Tag fieldStruct) "required") "true"
          then Ret field (Some (ErrRequired (Name fieldStruct)))
          else Ret field None
      | InitOnly => Ret field None
      end
  else Ret field None.

Section OneLevel.

(** The recursive calls of the binder, and the number of rounds the
    growth loop may still take in the model *)
Variable rec : type -> value -> list string -> result value.
Variable rounds : nat.

(** Existing elements (lines 272-278) *)
Fixpoint bindElems (path : list string) (t : type) (i : nat) (elems : list value)
  : result (list value) :=
  match elems with
  | [] => Ret [] None
  | e :: elems' =>
      let r := match KindOf (Indirect e) with
               | Struct => rec t e (path ++ [Str.Sprint i])
               | _ => Ret e None
               end in
      match r with
      | Ret e' None => mapRet (cons e') (bindElems path t (S i) elems')
      | Ret e' (Some err) => Ret (e' :: elems') (Some err)
      | Panic => Panic
      | OutOfFuel => OutOfFuel
      end
  end.

(** "load slice from env" (lines 284-294) *)
Fixpoint growSlice (k : nat) (path : list string) (t : type) (idx : nat)
    (field : option (list value)) : result (option (list value)) :=
  match k with
  | O => OutOfFuel
  | S k' =>
      match rec t (Zero t) (path ++ [Str.Sprint idx]) with
      | Ret newVal (Some err) => Ret field (Some err)
      | Ret newVal None =>
          if DeepEqual newVal (Zero t) then Ret field None
          else growSlice k' path t (S idx) (Append field newVal)
      | Panic => Panic
      | OutOfFuel => OutOfFuel
      end
  end.

(** The slice arm (lines 269-297) *)
Definition bindSlice (prefixes : list string) (fieldStruct : StructField)
    (t : type) (elems : option (list value)) : result (option (list value)) :=
  let path := getPrefixForStruct prefixes fieldStruct in
  if (0 <? Len elems)%nat then
    mapRet Some (bindElems path (Elem t) 0 (default [] elems))
  else
    match KindOf (Some (Zero (Elem t))) with
    | Struct => growSlice rounds path (Elem t) 0 elems
    | _ => Ret elems None
    end.

(** Pointer stripping and the descent (lines 259-297).  [field.Elem()]
    of a nil pointer is the zero Value: neither arm applies. *)
Fixpoint bindNested (prefixes : list string) (fieldStruct : StructField)
    (t : type) (field : value) : result value :=
  match field with
  | VPtr (Some target) =>
      mapRet (fun x => VPtr (Some x)) (bindNested prefixes fieldStruct (Elem t) target)
  | VStruct _ => rec t field (getPrefixForStruct prefixes fieldStruct)
  | VSlice elems => mapRet VSlice (bindSlice prefixes fieldStruct t elems)
  | _ => Ret field None
  end.

(** One round of the loop over the fields, for an accessible field *)
Definition bindField (b : binder) (prefixes : list string)
    (fieldStruct : StructField) (t : type) (field : value) : result value :=
  andThen (andThen (loadFromEnv (envNames prefixes fieldStruct) t field)
                   (applyDefault b fieldStruct t))
          (bindNested prefixes fieldStruct t).

(** The loop over the fields (lines 198-298).  The struct is addressable
    on every path into the binder, so [CanAddr] holds and the guard
    reduces to [CanInterface], which is false for unexported fields. *)
Fixpoint bindFields (b : binder) (prefixes : list string)
    (fields : list (StructField * type)) (vals : list value)
  : result (list value) :=
  match fields, vals with
  | (fieldStruct, t) :: fields', field :: vals' =>
      if negb (Exported fieldStruct) then
        mapRet (cons field) (bindFields b prefixes fields' vals')
      else
        match bindField b prefixes fieldStruct t field with
        | Ret field' None => mapRet (cons field') (bindFields b prefixes fields' vals')
        | Ret field' (Some err) => Ret (field' :: vals') (Some err)
        | Panic => Panic
        | OutOfFuel => OutOfFuel
        end
  | _, _ => Ret vals None
  end.

(** The body of [processTags] / [processInitTags]: [config] is the
    value behind the pointer the caller passed. *)
Definition bindStruct (b : binder) (t : type) (config : value)
    (prefixes : list string) : result value :=
  match config with
  | VStruct vals => mapRet VStruct (bindFields b prefixes (Fields t) vals)
  | _ => Ret config (Some ErrInvalidConfig)
  end.

End OneLevel.

(** The recursion is tied with a step budget: the growth loop of the
    source has no bound of its own. *)
Fixpoint bindTags (b : binder) (fuel : nat) (t : type) (config : value)
    (prefixes : list string) : result value :=
  match fuel with
  | O => OutOfFuel
  | S n => bindStruct (bindTags b n) n b t config prefixes
  end.

Definition processTags := bindTags Full.
Definition processInitTags := bindTags InitOnly.

End Binder.

(** ** The service, the operating system and the trace *)

(** [Config]: [AutoReloadCallback] is kept as "is it set"; calling it is
    an event of the trace. *)
Record Config := {
  Environment : string;
  ENVPrefix : string;
  Debug : bool;
  Verbose : bool;
  Silent : bool;
  AutoReload : bool;
  AutoReloadInterval : Z;
  AutoReloadCallback : bool;
  ErrorOnUnmatchedKeys : bool
}.

(** [ConfigService]: the embedded [*Config] and the modification times
    recorded by the last load that decoded all its files ([nil] is the
    empty map: both have length 0 and no key). *)
Record ConfigService := {
  config_of : Config;
  configModTimes : gmap string Z
}.

(** What [os.Stat] and [ioutil.ReadFile] see of a path: [Data] is [None]
    for a file that cannot be read. *)
Record FileInfo := {
  IsRegular : bool;
  ModTime : Z;
  Data : option string
}.

Record OS := {
  environ : gmap string string;
  files : gmap string FileInfo;
  Args0 : string
}.

(** [os.Getenv]: the value, or [""] when the variable is not set *)
Definition os_Getenv (o : OS) (key : string) : string :=
  default "" (environ o !! key).

(** [os.Stat] succeeds on the paths of the map *)
Definition os_Stat (o : OS) (path : string) : option FileInfo := files o !! path.

(** [t.After(v)] on instants *)
Definition After (t v : Z) : bool := (v <? t)%Z.

(** Lines printed by the package, and the calls the pipeline makes into
    the decoder dispatch, the binder and the user's callback.  The
    per-field lines the binder prints in verbose mode are not traced. *)
Inductive event :=
| PrintCurrentEnvironment (env : string)
| PrintUsingExample (file example : string)
| PrintNotFound (file : string)
| PrintLoadingFile (file : string)
| PrintFailedToLoad (requested : list string) (err : error)
| PrintConfiguration (config : value)
| PrintFailedToReload (requested : list string) (err : error)
| CallProcessFile (file : string)
| CallBinder (b : binder) (prefixes : list string)
| CallAutoReloadCallback (config : value).

(** [New] on a non-nil [*Config] *)
Definition New (o : OS) (config : Config) : ConfigService :=
  let debug := if negb (String.eqb (os_Getenv o "CONFIGOR_DEBUG_MODE") "")
               then true else Debug config in
  let verbose := if negb (String.eqb (os_Getenv o "CONFIGOR_VERBOSE_MODE") "")
                 then true else Verbose config in
  let silent := if negb (String.eqb (os_Getenv o "CONFIGOR_SILENT_MODE") "")
                then true else Silent config in
  let interval := if AutoReload config && (AutoReloadInterval config =? 0)%Z
                  then 1000000000%Z else AutoReloadInterval config in
  {| config_of :=
       {| Environment := Environment config; ENVPrefix := ENVPrefix config;
          Debug := debug; Verbose := verbose; Silent := silent;
          AutoReload := AutoReload config; AutoReloadInterval := interval;
          AutoReloadCallback := AutoReloadCallback config;
          ErrorOnUnmatchedKeys := ErrorOnUnmatchedKeys config |};
     configModTimes := ∅ |}.

(** [testRegexp = "_test|(\.test$)"] *)
Definition testRegexp_MatchString (s : string) : bool :=
  Str.Contains s "_test" || Str.HasSuffix s ".test".

(** [GetEnvironment] *)
Definition GetEnvironment (c : Config) (o : OS) : string :=
  if String.eqb (Environment c) "" then
    let env := os_Getenv o "CONFIGOR_ENV" in
    if negb (String.eqb env "") then env
    else if testRegexp_MatchString (Args0 o) then "test"
    else "development"
  else Environment c.

(** [getENVPrefix] *)
Definition getENVPrefix (c : Config) (o : OS) : string :=
  if String.eqb (ENVPrefix c) "" then
    let prefix := os_Getenv o "CONFIGOR_ENV_PREFIX" in
    if negb (String.eqb prefix "") then prefix else "ConfigService"
  else ENVPrefix c.

(** ** The source resolver *)

(** [getConfigurationFileWithENVPrefix]: the path found and its
    modification time, or [None] for the error *)
Definition envFileName (file env : string) : string :=
  let extname := Str.Ext file in
  if String.eqb extname ""
  then file +:+ "." +:+ env
  else Str.TrimSuffix file extname +:+ "." +:+ env +:+ extname.

Definition getConfigurationFileWithENVPrefix (o : OS) (file env : string)
  : option (string * Z) :=
  let envFile := envFileName file env in
  match os_Stat o envFile with
  | Some fileInfo =>
      if IsRegular fileInfo then Some (envFile, ModTime fileInfo) else None
  | None => None
  end.

(** The state of the loop of [getConfigurationFiles]: [resultKeys],
    [results] and what was printed *)
Definition resolved : Type := list string * gmap string Z * list event.

(** The body of the loop, for the candidate [file] (lines 68-96) *)
Definition resolveCandidate (c : Config) (o : OS) (watchMode : bool)
    (acc : resolved) (file : string) : resolved :=
  let '(resultKeys, results, out) := acc in
  (* check configuration *)
  let '(foundFile, resultKeys, results) :=
    match os_Stat o file with
    | Some fileInfo =>
        if IsRegular fileInfo
        then (true, resultKeys ++ [file], <[file := ModTime fileInfo]> results)
        else (false, resultKeys, results)
    | None => (false, resultKeys, results)
    end in
  (* check configuration with env *)
  let '(foundFile, resultKeys, results) :=
    match getConfigurationFileWithENVPrefix o file (GetEnvironment c o) with
    | Some (envFile, modTime) =>
        (true, resultKeys ++ [envFile], <[envFile := modTime]> results)
    | None => (foundFile, resultKeys, results)
    end in
  (* check example configuration *)
  if negb foundFile then
    match getConfigurationFileWithENVPrefix o file "example" with
    | Some (example, modTime) =>
        (resultKeys ++ [example], <[example := modTime]> results,
         out ++ (if negb watchMode && negb (Silent c)
                 then [PrintUsingExample file example] else []))
    | None =>
        (resultKeys, results,
         out ++ (if negb (Silent c) then [PrintNotFound file] else []))
    end
  else (resultKeys, results, out).

(** [getConfigurationFiles]: the candidates are walked from the last to
    the first. *)
Definition getConfigurationFiles (c : Config) (o : OS) (watchMode : bool)
    (requested : list string) : resolved :=
  let out :=
    if negb watchMode && (Debug c || Verbose c)
    then [PrintCurrentEnvironment (GetEnvironment c o)] else [] in
  foldl (resolveCandidate c o watchMode) ([], ∅, out) (rev requested).

(** ** Decoder dispatch and the load pipeline *)

(** [decoder.Decode] of encoding/json returns [io.EOF] on empty input and
    an error with a message otherwise. *)
Inductive json_error :=
| JsonEOF
| JsonError (msg : string).

Section Pipeline.

(** The collaborators.  Each returns the record as it leaves it (a
    decoder may have written part of it before it fails). *)
Variable yaml_Unmarshal : string -> type -> value -> value * option yaml_error.
Variable yaml_UnmarshalStrict : string -> type -> value -> value * option yaml_error.
(** [toml.Decode]: the record, [metadata.Undecoded()], the error *)
Variable toml_Decode : string -> type -> value -> value * list string * option string.
(** [json.NewDecoder(..).Decode], with [DisallowUnknownFields] or not *)
Variable json_Decode : bool -> string -> type -> value -> value * option json_error.

(** [unmarshalToml] *)
Definition unmarshalToml (data : string) (t : type) (config : value)
    (errorOnUnmatchedKeys : bool) : value * option error :=
  let '(config', undecoded, err) := toml_Decode data t config in
  match err with
  | None =>
      if (0 <? length undecoded)%nat && errorOnUnmatchedKeys
      then (config', Some (ErrUnmatchedTomlKeys undecoded))
      else (config', None)
  | Some msg => (config', Some (ErrToml msg))
  end.

(** [unmarshalJSON] *)
Definition unmarshalJSON (data : string) (t : type) (config : value)
    (errorOnUnmatchedKeys : bool) : value * option error :=
  let '(config', err) := json_Decode errorOnUnmatchedKeys data t config in
  match err with
  | Some (JsonError msg) => (config', Some (ErrJSON msg))
  | _ => (config', None)
  end.

Definition unmarshalYaml (data : string) (t : type) (config : value)
    (errorOnUnmatchedKeys : bool) : value * option yaml_error :=
  if errorOnUnmatchedKeys
  then yaml_UnmarshalStrict data t config
  else yaml_Unmarshal data t config.

(** The [default:] arm of [processFile] (lines 117-144) *)
Definition probeFormats (data : string) (t : type) (config : value)
    (errorOnUnmatchedKeys : bool) : value * option error :=
  match unmarshalToml data t config errorOnUnmatchedKeys with
  | (config, None) => (config, None)
  | (config, Some (ErrUnmatchedTomlKeys keys)) =>
      (config, Some (ErrUnmatchedTomlKeys keys))
  | (config, Some _) =>
      match unmarshalJSON data t config errorOnUnmatchedKeys with
      | (config, None) => (config, None)
      | (config, Some err) =>
          let jsonUnknownField :=
            match err with
            | ErrJSON msg => Str.Contains msg "json: unknown field"
            | _ => false
            end in
          if jsonUnknownField then (config, Some err)
          else
            match unmarshalYaml data t config errorOnUnmatchedKeys with
            | (config, None) => (config, None)
            | (config, Some (YamlTypeError issues)) =>
                (config, Some (ErrYaml (YamlTypeError issues)))
            | (config, Some _) => (config, Some ErrDecode)
            end
      end
  end.

(** [ioutil.ReadFile] *)
Definition ReadFile (o : OS) (file : string) : option string :=
  match os_Stat o file with
  | Some fileInfo => Data fileInfo
  | None => None
  end.

(** [processFile] *)
Definition processFile (o : OS) (t : type) (config : value) (file : string)
    (errorOnUnmatchedKeys : bool) : value * option error :=
  match ReadFile o file with
  | None => (config, Some (ErrReadFile file))
  | Some data =>
      if Str.HasSuffix file ".yaml" || Str.HasSuffix file ".yml" then
        let '(config', err) := unmarshalYaml data t config errorOnUnmatchedKeys in
        (config', ErrYaml <$> err)
      else if Str.HasSuffix file ".toml" then
        unmarshalToml data t config errorOnUnmatchedKeys
      else if Str.HasSuffix file ".json" then
        unmarshalJSON data t config errorOnUnmatchedKeys
      else probeFormats data t config errorOnUnmatchedKeys
  end.

(** The change test of watch mode (lines 317-322): the order in which
    the map is ranged over does not matter for the flag. *)
Definition sourcesChanged (configModTimeMap recorded : gmap string Z) : bool :=
  existsb (fun ft : string * Z =>
             match recorded !! fst ft with
             | Some v => After (snd ft) v
             | None => true
             end)
          (map_to_list configModTimeMap).

(** The loop over the resolved files (lines 330-337) *)
Fixpoint processFiles (c : Config) (o : OS) (t : type) (config : value)
    (configFiles : list string) (out : list event)
  : value * list event * option error :=
  match configFiles with
  | [] => (config, out, None)
  | file :: rest =>
      let out := out ++ (if Debug c || Verbose c then [PrintLoadingFile file] else []) in
      let out := out ++ [CallProcessFile file] in
      match processFile o t config file (ErrorOnUnmatchedKeys c) with
      | (config', None) => processFiles c o t config' rest out
      | (config', Some err) => (config', out, Some err)
      end
  end.

(** What a pipeline run leaves: the record, [configModTimes], the
    [changed] flag and the trace *)
Definition loaded : Type := value * gmap string Z * bool * list event.

(** The deferred function of [load] and [init] *)
Definition deferredPrint (c : Config) (requested : list string) (config : value)
    (err : option error) : list event :=
  if Debug c || Verbose c then
    match err with
    | Some e => [PrintFailedToLoad requested e; PrintConfiguration config]
    | None => [PrintConfiguration config]
    end
  else [].

(** [load] and [init]: one text in the source up to the binder called *)
Definition loadWith (b : binder) (s : ConfigService) (o : OS) (fuel : nat)
    (t : type) (config : value) (watchMode : bool) (requested : list string)
  : result loaded :=
  let c := config_of s in
  let '(configFiles, configModTimeMap, out) :=
    getConfigurationFiles c o watchMode requested in
  if watchMode
     && (size configModTimeMap =? size (configModTimes s))%nat
     && negb (sourcesChanged configModTimeMap (configModTimes s))
  then
    Ret (config, configModTimes s, false, out ++ deferredPrint c requested config None)
        None
  else
    match processFiles c o t config configFiles out with
    | (config, out, Some err) =>
        Ret (config, configModTimes s, true,
             out ++ deferredPrint c requested config (Some err))
            (Some err)
    | (config, out, None) =>
        let prefix := getENVPrefix c o in
        let prefixes := if String.eqb prefix "-" then [] else [prefix] in
        match bindTags yaml_Unmarshal (os_Getenv o) b fuel t config prefixes with
        | Ret config err =>
            Ret (config, configModTimeMap, true,
                 out ++ [CallBinder b prefixes] ++ deferredPrint c requested config err)
                err
        | Panic => Panic
        | OutOfFuel => OutOfFuel
        end
    end.

Definition load := loadWith Full.
Definition init := loadWith InitOnly.

(** ** The facade: [Load], [Init] and the reload loop *)

(** The [config interface{}] argument: a pointer to a cell of the heap,
    or a value passed directly (not addressable). *)
Inductive iface :=
| PtrTo (l : nat)
| Direct (v : value).

Record state := {
  heap : gmap nat value;
  service : ConfigService;
  trace : list event
}.

Definition withModTimes (s : ConfigService) (m : gmap string Z) : ConfigService :=
  {| config_of := config_of s; configModTimes := m |}.

(** The synchronous part of [Load] / [Init] (lines 111-115, 142-146):
    the pipeline writes through the pointer, whatever it returns. *)
Definition callWith (b : binder) (o : OS) (fuel : nat) (t : type) (config : iface)
    (requested : list string) (st : state) : result state :=
  match config with
  | Direct _ => Ret st (Some ErrNotAddressable)
  | PtrTo l =>
      match heap st !! l with
      | None => Ret st (Some ErrNotAddressable)
      | Some v =>
          match loadWith b (service st) o fuel t v false requested with
          | Ret (v', modTimes, _, out) err =>
              Ret {| heap := <[l := v']> (heap st);
                     service := withModTimes (service st) modTimes;
                     trace := trace st ++ out |} err
          | Panic => Panic
          | OutOfFuel => OutOfFuel
          end
      end
  end.

Definition Load := callWith Full.
Definition Init := callWith InitOnly.

(** One round of the goroutine of [Load] (lines 121-133), run on the
    operating system as it is when the timer fires.  [defaultValue] is
    [reflect.Indirect(reflect.ValueOf(config))]: a Value that refers to
    the caller's cell, so [Set(defaultValue)] copies what the cell holds
    when the round runs.  [seed] is that copy.  [Set] copies the fields of
    the record and shares the pointer targets and the elements of the
    sequences with the caller's cell; a [value] owns what it points to, so
    the model copies those too.  The two are the same for a record that
    holds no pointer that is not nil and no element in any sequence
    ([unshared] below); what a round leaves in the caller's cell is stated
    for such records. *)
Definition reloadSeed (defaultValue : nat) (st : state) : option value :=
  heap st !! defaultValue.

Definition reloadCycle (o : OS) (fuel : nat) (t : type) (config : nat)
    (requested : list string) (st : state) : result state :=
  let defaultValue := config in
  match reloadSeed defaultValue st with
  | None => Panic
  | Some seed =>
      let reflectPtr := fresh (dom (heap st)) in
      match load (service st) o fuel t seed true requested with
      | Ret (scratch, modTimes, changed, out) err =>
          let heap1 := <[reflectPtr := scratch]> (heap st) in
          let s1 := withModTimes (service st) modTimes in
          match err with
          | None =>
              if changed then
                Ret {| heap := <[config := scratch]> heap1;
                       service := s1;
                       trace := trace st ++ out ++
                                (if AutoReloadCallback (config_of (service st))
                                 then [CallAutoReloadCallback scratch] else []) |}
                    None
              else Ret {| heap := heap1; service := s1; trace := trace st ++ out |} None
          | Some e =>
              Ret {| heap := heap1; service := s1;
                     trace := trace st ++ out ++ [PrintFailedToReload requested e] |}
                  None
          end
      | Panic => Panic
      | OutOfFuel => OutOfFuel
      end
  end.

End Pipeline.

(** ** Test fixtures: the decoders on the literals the examples use *)

Module Fixture.

Definition parseInt (s : string) : option Z :=
  match NilEmpty.uint_of_string s with
  | Some u => if String.eqb s "" then None else Some (Z.of_nat (Nat.of_uint u))
  | None => None
  end.

(** A YAML scalar read into a field of the given type *)
Definition scalar (data : string) (t : type) (field : value)
  : value * option yaml_error :=
  match t with
  | TBool =>
      if String.eqb data "true" then (VBool true, None)
      else if String.eqb data "false" then (VBool false, None)
      else (field, Some (YamlTypeError [CannotUnmarshal data]))
  | TInt =>
      match parseInt data with
      | Some z => (VInt z, None)
      | None => (field, Some (YamlTypeError [CannotUnmarshal data]))
      end
  | TString => (VString data, None)
  | _ => (field, Some (YamlTypeError [CannotUnmarshal data]))
  end.

(** A one-line document [key: scalar] read into a struct: the key
    names the field whose lower-cased name it is. *)
Fixpoint setKey (strict : bool) (key data : string)
    (fields : list (StructField * type)) (vals : list value)
  : list value * option yaml_error :=
  match fields, vals with
  | (f, t) :: fields', v :: vals' =>
      if String.eqb (Str.ToLower (Name f)) key then
        let '(v', err) := scalar data t v in (v' :: vals', err)
      else
        let '(vals'', err) := setKey strict key data fields' vals' in
        (v :: vals'', err)
  | _, _ =>
      (vals, if strict then Some (YamlTypeError [FieldNotFound key]) else None)
  end.

Definition document (strict : bool) (data : string) (t : type) (config : value)
  : value * option yaml_error :=
  match config with
  | VStruct vals =>
      if String.eqb data "" || String.eqb data "{}" then (config, None)
      else
        match String.index 0 ": " data with
        | Some i =>
            let key := String.substring 0 i data in
            let rest := String.substring (i + 2) (String.length data - (i + 2)) data in
            let '(vals', err) := setKey strict key rest (Fields t) vals in
            (VStruct vals', err)
        | None => (config, Some (YamlSyntaxError "could not find expected ':'"))
        end
  | _ => scalar data t config
  end.

Definition yaml_Unmarshal := document false.
Definition yaml_UnmarshalStrict := document true.

(** The other two decoders reject every input that is not empty. *)
Definition toml_Decode (data : string) (t : type) (config : value)
  : value * list string * option string :=
  if String.eqb data "" then (config, [], None)
  else (config, [], Some "bare keys cannot contain ':'").

Definition json_Decode (strict : bool) (data : string) (t : type) (config : value)
  : value * option json_error :=
  if String.eqb data "" then (config, Some JsonEOF)
  else (config, Some (JsonError "invalid character 'p' looking for beginning of value")).

(** An exported field with the given tag *)
Definition field (name : string) (tag : list (string * string)) : StructField :=
  {| Name := name; Tag := tag; Anonymous := false; Exported := true |}.

Definition env (l : list (string * string)) (key : string) : string :=
  default "" ((list_to_map l : gmap string string) !! key).

End Fixture.

(** ** The environment loop, in two steps *)

(** The value the probing loop takes: that of the first candidate name
    whose variable is not empty *)
Fixpoint firstSet (Getenv : string -> string) (names : list string) : option string :=
  match names with
  | [] => None
  | env :: names' =>
      if String.eqb (Getenv env) "" then firstSet Getenv names' else Some (Getenv env)
  end.

(** The conversion of a variable's value into a field (lines 228-242) *)
Definition convert (yaml_Unmarshal : string -> type -> value -> value * option yaml_error)
    (raw : string) (t : type) (field : value) : result value :=
  match KindOf (Indirect field) with
  | Bool => SetBool field (boolOfEnv raw)
  | String_ => SetString field raw
  | _ => unmarshalField yaml_Unmarshal raw t field
  end.

(** The strings the boolean arm reads as false, after lower-casing *)
Definition falsy : list string := [""; "0"; "f"; "false"].

(** A field the binder does not descend into once it is bound *)
Definition scalar (v : value) : bool :=
  match v with
  | VBool _ | VString _ | VInt _ => true
  | _ => false
  end.

(** [os.Setenv] and [os.Unsetenv] *)
Definition setenv (o : OS) (key raw : string) : OS :=
  {| environ := <[key := raw]> (environ o); files := files o; Args0 := Args0 o |}.

Definition unsetenv (o : OS) (key : string) : OS :=
  {| environ := delete key (environ o); files := files o; Args0 := Args0 o |}.

(** Put [v] back at index [i] of a struct's fields *)
Definition withField (i : nat) (v : value) (r : value) : value :=
  match r with
  | VStruct l => VStruct (take i l ++ v :: drop i l)
  | _ => r
  end.

(** Put bound fields back in front of a struct's fields *)
Definition withFront (front : list value) (r : value) : value :=
  match r with
  | VStruct l => VStruct (front ++ l)
  | _ => r
  end.

(** A record whose copy shares nothing with it: no pointer that is not
    nil and no sequence with elements, in any of its fields *)
Fixpoint unshared (v : value) : bool :=
  match v with
  | VStruct l => forallb unshared l
  | VSlice (Some (_ :: _)) => false
  | VPtr (Some _) => false
  | _ => true
  end.

(** A name without dot and without slash *)
Definition plain (name : string) : bool :=
  forallb (fun c => negb (Ascii.eqb c "/") && negb (Ascii.eqb c "."))
    (list_ascii_of_string name).



(** ** Induction on values, through the lists and options they nest *)

Section value_induction.

Variable P : value -> Prop.
Hypothesis HBool : forall b, P (VBool b).
Hypothesis HString : forall s, P (VString s).
Hypothesis HInt : forall z, P (VInt z).
Hypothesis HStruct : forall l, Forall P l -> P (VStruct l).
Hypothesis HNilSlice : P (VSlice None).
Hypothesis HSlice : forall l, Forall P l -> P (VSlice (Some l)).
Hypothesis HNilPtr : P (VPtr None).
Hypothesis HPtr : forall v, P v -> P (VPtr (Some v)).

Fixpoint value_nested_ind (v : value) : P v :=
  let fix all (l : list value) : Forall P l :=
    match l with
    | [] => List.Forall_nil P
    | x :: l' => @List.Forall_cons _ P x l' (value_nested_ind x) (all l')
    end in
  match v with
  | VBool b => HBool b
  | VString s => HString s
  | VInt z => HInt z
  | VStruct l => HStruct l (all l)
  | VSlice None => HNilSlice
  | VSlice (Some l) => HSlice l (all l)
  | VPtr None => HNilPtr
  | VPtr (Some x) => HPtr x (value_nested_ind x)
  end.

End value_induction.

(** The list comparison inside [DeepEqual] *)
Fixpoint DeepEqualList (xs ys : list value) : bool :=
  match xs, ys with
  | [], [] => true
  | x :: xs', y :: ys' => DeepEqual x y && DeepEqualList xs' ys'
  | _, _ => false
  end.

(** ** Vocabulary of the statements *)

(** The result is not the "required, but blank" error. *)
Definition noRequired {A} (r : result A) : Prop :=
  match r with
  | Ret _ (Some (ErrRequired _)) => False
  | _ => True
  end.

(** The returned error is the "required, but blank" error. *)
Definition isRequired (e : option error) : bool :=
  match e with
  | Some (ErrRequired _) => true
  | _ => false
  end.

(** [path] names a regular file; its modification time when it does *)
Definition regular (o : OS) (path : string) : bool :=
  match os_Stat o path with
  | Some fileInfo => IsRegular fileInfo
  | None => false
  end.

Definition modTimeOf (o : OS) (path : string) : option Z :=
  match os_Stat o path with
  | Some fileInfo => if IsRegular fileInfo then Some (ModTime fileInfo) else None
  | None => None
  end.

(** What one candidate contributes, in the words of the specification:
    the literal path, then the environment-suffixed one, each if it is a
    regular file; the example file only when neither is. *)
Definition candidateSources (c : Config) (o : OS) (file : string) : list string :=
  let base := if regular o file then [file] else [] in
  let suffixed :=
    if regular o (envFileName file (GetEnvironment c o))
    then [envFileName file (GetEnvironment c o)] else [] in
  match base ++ suffixed with
  | [] =>
      if regular o (envFileName file "example")
      then [envFileName file "example"] else []
  | found => found
  end.

(** What is printed for one candidate *)
Definition candidateDiagnostics (c : Config) (o : OS) (watchMode : bool) (file : string)
  : list event :=
  if regular o file || regular o (envFileName file (GetEnvironment c o)) then []
  else if regular o (envFileName file "example") then
    if negb watchMode && negb (Silent c)
    then [PrintUsingExample file (envFileName file "example")] else []
  else if negb (Silent c) then [PrintNotFound file] else [].

(** The map of modification times holds exactly the resolved paths. *)
Definition timesOf (o : OS) (keys : list string) (results : gmap string Z) : Prop :=
  forall path,
    results !! path = if decide (path ∈ keys) then modTimeOf o path else None.

(** The events that are calls into the decoders, the binder or the
    user's callback *)
Definition isCall (e : event) : bool :=
  match e with
  | CallProcessFile _ | CallBinder _ _ | CallAutoReloadCallback _ => true
  | _ => false
  end.





(** ** A running example: one file, one field, auto-reload on *)

Module Example1.

Definition T : type := TStruct [(Fixture.field "Port" [], TInt)].

Definition cfg : Config :=
  {| Environment := "production"; ENVPrefix := "-"; Debug := false; Verbose := false;
     Silent := false; AutoReload := true; AutoReloadInterval := 0;
     AutoReloadCallback := true; ErrorOnUnmatchedKeys := false |}.

(** [config.yaml] holds [port: 80], written at time 10 *)
Definition os1 : OS :=
  {| environ := ∅;
     files := {[ "config.yaml" :=
                   {| IsRegular := true; ModTime := 10; Data := Some "port: 80" |} ]};
     Args0 := "svc" |}.

(** the file is rewritten at time 20 and no longer sets the port *)
Definition os2 : OS :=
  {| environ := ∅;
     files := {[ "config.yaml" :=
                   {| IsRegular := true; ModTime := 20; Data := Some "{}" |} ]};
     Args0 := "svc" |}.

(** the caller's record, at address 0, before the first load *)
Definition original : value := VStruct [VInt 0].

Definition st0 : state :=
  {| heap := {[ 0 := original ]}; service := New os1 cfg; trace := [] |}.

Definition load1 :=
  Load Fixture.yaml_Unmarshal Fixture.yaml_UnmarshalStrict Fixture.toml_Decode
    Fixture.json_Decode os1 3 T (PtrTo 0) ["config.yaml"] st0.

(** the state the first load leaves *)
Definition st1 : state :=
  match load1 with
  | Ret st _ => st
  | _ => st0
  end.

Definition cycle (o : OS) (st : state) :=
  reloadCycle Fixture.yaml_Unmarshal Fixture.yaml_UnmarshalStrict Fixture.toml_Decode
    Fixture.json_Decode o 3 T 0 ["config.yaml"] st.

End Example1.

(** * Properties *)

Example fixture_yaml_port :
  Fixture.yaml_Unmarshal "port: 80" (TStruct [(Fixture.field "Port" [], TInt)])
    (VStruct [VInt 0]) = (VStruct [VInt 80], None).
Proof. reflexivity. Qed.

Example envNames_nested :
  envNames ["PREFIX"; "Items"; "0"] (Fixture.field "Name" [])
  = ["PREFIX_Items_0_Name"; "PREFIX_ITEMS_0_NAME"].
Proof. reflexivity. Qed.

Example envFileName_ext : envFileName "config.yaml" "production" = "config.production.yaml".
Proof. reflexivity. Qed.

Example envFileName_noext : envFileName "dir.d/config" "test" = "dir.d/config.test".
Proof. reflexivity. Qed.

Lemma DeepEqual_struct xs ys : DeepEqual (VStruct xs) (VStruct ys) = DeepEqualList xs ys.
Proof. reflexivity. Qed.

Lemma DeepEqual_slice xs ys :
  DeepEqual (VSlice (Some xs)) (VSlice (Some ys)) = DeepEqualList xs ys.
Proof. reflexivity. Qed.

Lemma DeepEqualList_eq xs :
  Forall (fun x => forall y, DeepEqual x y = true <-> x = y) xs ->
  forall ys, DeepEqualList xs ys = true <-> xs = ys.
Proof.
  induction 1 as [|x xs Hx _ IH]; intros [|y ys]; simpl; try (split; congruence).
  rewrite andb_true_iff, Hx, IH. split; [intros [-> ->]; reflexivity|].
  intros E; injection E; auto.
Qed.

Lemma DeepEqual_eq a : forall b, DeepEqual a b = true <-> a = b.
Proof.
  induction a as [x|x|x|l IH| |l IH| |v IH] using value_nested_ind; intros b.
  - destruct b; simpl; try (split; congruence).
    rewrite Bool.eqb_true_iff. split; congruence.
  - destruct b; simpl; try (split; congruence).
    rewrite String.eqb_eq. split; congruence.
  - destruct b; simpl; try (split; congruence).
    rewrite Z.eqb_eq. split; congruence.
  - destruct b as [| | |l'| |]; try (simpl; split; congruence).
    rewrite DeepEqual_struct, (DeepEqualList_eq l IH). split; congruence.
  - destruct b as [| | | |[l'|]|]; simpl; split; congruence.
  - destruct b as [| | | |[l'|]|]; try (simpl; split; congruence).
    rewrite DeepEqual_slice, (DeepEqualList_eq l IH). split; congruence.
  - destruct b as [| | | | |[v'|]]; simpl; split; congruence.
  - destruct b as [| | | | |[v'|]]; try (simpl; split; congruence).
    simpl. rewrite IH. split; congruence.
Qed.

Lemma DeepEqual_neq a b : DeepEqual a b = false <-> a <> b.
Proof.
  rewrite <- (DeepEqual_eq a b). destruct (DeepEqual a b); split; congruence.
Qed.

(** ** The probing loop *)

Lemma firstSet_not_empty Getenv names raw :
  firstSet Getenv names = Some raw -> raw <> "".
Proof.
  induction names as [|env names IH]; simpl; [discriminate|].
  destruct (String.eqb (Getenv env) "") eqn:E; [exact IH|].
  intros [= <-]. now apply String.eqb_neq.
Qed.

Lemma firstSet_ext g1 g2 names :
  (forall key, g1 key = g2 key) -> firstSet g1 names = firstSet g2 names.
Proof.
  intros H. induction names as [|env names IH]; simpl; [reflexivity|].
  now rewrite H, IH.
Qed.

(** The loop converts the first non-empty value and nothing else. *)
Lemma loadFromEnv_firstSet yaml Getenv names t field :
  loadFromEnv yaml Getenv names t field =
  match firstSet Getenv names with
  | Some raw => convert yaml raw t field
  | None => Ret field None
  end.
Proof.
  induction names as [|env names IH]; simpl; [reflexivity|].
  destruct (String.eqb (Getenv env) ""); simpl; [exact IH|reflexivity].
Qed.

Lemma loadFromEnv_ext yaml g1 g2 names t field :
  (forall key, g1 key = g2 key) ->
  loadFromEnv yaml g1 names t field = loadFromEnv yaml g2 names t field.
Proof.
  intros H. now rewrite !loadFromEnv_firstSet, (firstSet_ext g1 g2 names H).
Qed.

(** ** The binder depends on the environment through [Getenv] only *)

Section Extensional.

Variable yaml : string -> type -> value -> value * option yaml_error.
Variables g1 g2 : string -> string.
Hypothesis Hg : forall key, g1 key = g2 key.
Variables rec1 rec2 : type -> value -> list string -> result value.
Hypothesis Hrec : forall t v p, rec1 t v p = rec2 t v p.

Lemma bindElems_ext path t i elems :
  bindElems rec1 path t i elems = bindElems rec2 path t i elems.
Proof.
  revert i. induction elems as [|e elems IH]; intros i; simpl; [reflexivity|].
  now rewrite Hrec, IH.
Qed.

Lemma growSlice_ext k path t idx field :
  growSlice rec1 k path t idx field = growSlice rec2 k path t idx field.
Proof.
  revert idx field. induction k as [|k IH]; intros idx field; simpl; [reflexivity|].
  rewrite Hrec. destruct (rec2 t (Zero t) _) as [newVal [err|]| |]; try reflexivity.
  destruct (DeepEqual newVal (Zero t)); [reflexivity|apply IH].
Qed.

Lemma bindSlice_ext rounds prefixes fs t elems :
  bindSlice rec1 rounds prefixes fs t elems = bindSlice rec2 rounds prefixes fs t elems.
Proof.
  unfold bindSlice. now rewrite bindElems_ext, growSlice_ext.
Qed.

Lemma bindNested_ext rounds prefixes fs t field :
  bindNested rec1 rounds prefixes fs t field = bindNested rec2 rounds prefixes fs t field.
Proof.
  revert t.
  induction field as [x|x|x|l _| |l _| |v IH] using value_nested_ind; intros t; simpl;
    try reflexivity.
  - apply Hrec.
  - now rewrite bindSlice_ext.
  - now rewrite bindSlice_ext.
  - now rewrite IH.
Qed.

Lemma bindField_ext rounds b prefixes fs t field :
  bindField yaml g1 rec1 rounds b prefixes fs t field
  = bindField yaml g2 rec2 rounds b prefixes fs t field.
Proof.
  unfold bindField. rewrite (loadFromEnv_ext yaml g1 g2 _ _ _ Hg).
  match goal with
  | |- andThen ?inner _ = _ => destruct inner as [field' [err|]| |]
  end; simpl; try reflexivity.
  apply bindNested_ext.
Qed.

Lemma bindFields_ext rounds b prefixes fields vals :
  bindFields yaml g1 rec1 rounds b prefixes fields vals
  = bindFields yaml g2 rec2 rounds b prefixes fields vals.
Proof.
  revert vals. induction fields as [|[fs t] fields IH]; intros [|field vals]; simpl;
    try reflexivity.
  now rewrite bindField_ext, IH.
Qed.

Lemma bindStruct_ext rounds b t config prefixes :
  bindStruct yaml g1 rec1 rounds b t config prefixes
  = bindStruct yaml g2 rec2 rounds b t config prefixes.
Proof.
  destruct config; simpl; try reflexivity. now rewrite bindFields_ext.
Qed.

End Extensional.

Lemma bindTags_ext yaml g1 g2 b fuel :
  (forall key, g1 key = g2 key) ->
  forall t config prefixes,
    bindTags yaml g1 b fuel t config prefixes = bindTags yaml g2 b fuel t config prefixes.
Proof.
  intros Hg. induction fuel as [|n IH]; intros t config prefixes; simpl; [reflexivity|].
  now apply bindStruct_ext.
Qed.

(** ** The loop over the fields, field by field *)

Section Fields.

Variable yaml : string -> type -> value -> value * option yaml_error.
Variable Getenv : string -> string.
Variable rec : type -> value -> list string -> result value.
Variable rounds : nat.

Lemma mapRet_mapRet {A B C} (f : A -> B) (g : B -> C) (r : result A) :
  mapRet g (mapRet f r) = mapRet (fun a => g (f a)) r.
Proof. now destruct r. Qed.

Lemma mapRet_ext {A B} (f g : A -> B) (r : result A) :
  (forall a, f a = g a) -> mapRet f r = mapRet g r.
Proof. intros H. destruct r; simpl; now rewrite ?H. Qed.

(** Once the front fields are bound without error, the loop carries on
    with the rest. *)
Lemma bindFields_app b prefixes front vfront vfront' fields vals :
  length vfront = length front ->
  bindFields yaml Getenv rec rounds b prefixes front vfront = Ret vfront' None ->
  bindFields yaml Getenv rec rounds b prefixes (front ++ fields) (vfront ++ vals)
  = mapRet (app vfront') (bindFields yaml Getenv rec rounds b prefixes fields vals).
Proof.
  revert vfront vfront'.
  induction front as [|[fs t] front IH]; intros [|v vfront] vfront'; simpl;
    try discriminate.
  - intros _ [= <-]. destruct (bindFields _ _ _ _ _ _ fields vals); reflexivity.
  - intros [= Hlen].
    destruct (negb (Exported fs)).
    + destruct (bindFields _ _ _ _ _ _ front vfront) as [l [e|]| |] eqn:E;
        simpl; try discriminate.
      intros [= <-]. rewrite (IH _ _ Hlen E), mapRet_mapRet. reflexivity.
    + destruct (bindField _ _ _ _ _ _ fs t v) as [v' [e|]| |]; try discriminate.
      destruct (bindFields _ _ _ _ _ _ front vfront) as [l [e|]| |] eqn:E;
        simpl; try discriminate.
      intros [= <-]. rewrite (IH _ _ Hlen E), mapRet_mapRet. reflexivity.
Qed.


End Fields.

(** ** Boolean fields read from the environment *)

Lemma boolOfEnv_falsy raw : boolOfEnv raw = false <-> Str.ToLower raw ∈ falsy.
Proof.
  unfold boolOfEnv, falsy.
  rewrite !elem_of_cons, elem_of_nil.
  destruct (String.eqb (Str.ToLower raw) "") eqn:E1;
    [apply String.eqb_eq in E1; simpl; tauto|apply String.eqb_neq in E1].
  destruct (String.eqb (Str.ToLower raw) "0") eqn:E2;
    [apply String.eqb_eq in E2; simpl; tauto|apply String.eqb_neq in E2].
  destruct (String.eqb (Str.ToLower raw) "f") eqn:E3;
    [apply String.eqb_eq in E3; simpl; tauto|apply String.eqb_neq in E3].
  destruct (String.eqb (Str.ToLower raw) "false") eqn:E4;
    [apply String.eqb_eq in E4; simpl; tauto|apply String.eqb_neq in E4].
  simpl. split; [discriminate|tauto].
Qed.

Example boolOfEnv_literals :
  boolOfEnv "" = false /\ boolOfEnv "0" = false /\ boolOfEnv "f" = false
  /\ boolOfEnv "F" = false /\ boolOfEnv "false" = false /\ boolOfEnv "FALSE" = false
  /\ boolOfEnv "False" = false /\ boolOfEnv "1" = true /\ boolOfEnv "no" = true
  /\ boolOfEnv "true" = true /\ boolOfEnv " " = true.
Proof. repeat split. Qed.

(** ** Empty variables *)

Lemma os_Getenv_setenv_empty o name key :
  os_Getenv (setenv o name "") key = os_Getenv (unsetenv o name) key.
Proof.
  unfold os_Getenv, setenv, unsetenv. simpl.
  destruct (decide (name = key)) as [->|Hne].
  - now rewrite lookup_insert_eq, lookup_delete_eq.
  - now rewrite lookup_insert_ne, lookup_delete_ne.
Qed.

(** C10: a candidate variable set to the empty string is skipped by the
    probing loop, which goes on with the next name; and both binder
    variants give, on every record, exactly the outcome they give when
    that variable is not set at all. *)
Theorem C10_empty_variable_is_absent yaml o name names b fuel t field config prefixes :
  loadFromEnv yaml (os_Getenv (setenv o name "")) (name :: names) t field
  = loadFromEnv yaml (os_Getenv (setenv o name "")) names t field
  /\ bindTags yaml (os_Getenv (setenv o name "")) b fuel t config prefixes
     = bindTags yaml (os_Getenv (unsetenv o name)) b fuel t config prefixes.
Proof.
  split.
  - simpl. unfold os_Getenv at 1 2. simpl. now rewrite lookup_insert_eq.
  - apply bindTags_ext. intros key. apply os_Getenv_setenv_empty.
Qed.

(** ** Fields the binder cannot reach *)

Lemma bindFields_skip yaml Getenv rec rounds b prefixes front fs t fields vfront v vals :
  Exported fs = false ->
  length vfront = length front ->
  bindFields yaml Getenv rec rounds b prefixes (front ++ (fs, t) :: fields)
    (vfront ++ v :: vals)
  = mapRet (fun l => take (length front) l ++ v :: drop (length front) l)
      (bindFields yaml Getenv rec rounds b prefixes (front ++ fields) (vfront ++ vals)).
Proof.
  intros Hfs. revert vfront.
  induction front as [|[fs0 t0] front IH]; intros [|v0 vfront]; simpl; try discriminate.
  - intros _. rewrite Hfs. simpl. apply mapRet_ext. intros l. now rewrite drop_0.
  - intros [= Hlen].
    destruct (negb (Exported fs0)).
    + rewrite (IH _ Hlen), !mapRet_mapRet. reflexivity.
    + destruct (bindField _ _ _ _ _ _ fs0 t0 v0) as [v' [e|]| |]; simpl; try reflexivity.
      * now rewrite <- Hlen, take_app_length, drop_app_length.
      * rewrite (IH _ Hlen), !mapRet_mapRet. reflexivity.
Qed.

(** C9: an unexported field is skipped by both binder variants: the
    outcome on a record is the outcome on the record without that field,
    with the field's value put back untouched; no variable is read for it,
    no default is applied, nothing is bound below it and no error comes
    from it, whatever its tags. *)
Theorem C9_unexported_field_skipped yaml Getenv b fuel prefixes
    front fs t fields vfront v vals :
  Exported fs = false ->
  length vfront = length front ->
  bindTags yaml Getenv b fuel (TStruct (front ++ (fs, t) :: fields))
    (VStruct (vfront ++ v :: vals)) prefixes
  = mapRet (withField (length front) v)
      (bindTags yaml Getenv b fuel (TStruct (front ++ fields))
         (VStruct (vfront ++ vals)) prefixes).
Proof.
  intros Hfs Hlen. destruct fuel as [|n]; simpl; [reflexivity|].
  rewrite (bindFields_skip _ _ _ _ _ _ _ _ _ _ _ _ _ Hfs Hlen), !mapRet_mapRet.
  reflexivity.
Qed.

Lemma C9_unexported_field_skipped_witness :
  let secret := {| Name := "secret"; Tag := [("required", "true"); ("default", "x")];
                   Anonymous := false; Exported := false |} in
  processTags Fixture.scalar (Fixture.env [("APP_SECRET", "s")]) 3
    (TStruct [(Fixture.field "Port" [], TInt); (secret, TString)])
    (VStruct [VInt 80; VString ""]) ["APP"]
  = Ret (VStruct [VInt 80; VString ""]) None
  /\ processInitTags Fixture.scalar (Fixture.env [("APP_SECRET", "s")]) 3
       (TStruct [(secret, TString)]) (VStruct [VString ""]) ["APP"]
     = Ret (VStruct [VString ""]) None.
Proof.
  intros secret. split.
  - exact (C9_unexported_field_skipped Fixture.scalar (Fixture.env [("APP_SECRET", "s")])
             Full 3 ["APP"] [(Fixture.field "Port" [], TInt)] secret TString []
             [VInt 80] (VString "") [] eq_refl eq_refl).
  - exact (C9_unexported_field_skipped Fixture.scalar (Fixture.env [("APP_SECRET", "s")])
             InitOnly 3 ["APP"] [] secret TString [] [] (VString "") [] eq_refl eq_refl).
Defined.

(** ** The binder inside the pipeline *)

(** Outside watch mode, once every resolved file is decoded, what [load]
    and [init] return is what the binder returns. *)
Lemma loadWith_binds yaml yamlStrict toml json b s o fuel t config requested
    configFiles times out config1 out1 config2 err :
  getConfigurationFiles (config_of s) o false requested = (configFiles, times, out) ->
  processFiles yaml yamlStrict toml json (config_of s) o t config configFiles out
  = (config1, out1, None) ->
  bindTags yaml (os_Getenv o) b fuel t config1
    (if String.eqb (getENVPrefix (config_of s) o) "-"
     then [] else [getENVPrefix (config_of s) o])
  = Ret config2 err ->
  exists printed,
    loadWith yaml yamlStrict toml json b s o fuel t config false requested
    = Ret (config2, times, true, printed) err.
Proof.
  intros Hres Hfiles Hbind. unfold loadWith. rewrite Hres. simpl.
  rewrite Hfiles, Hbind. eexists. reflexivity.
Qed.

(** ** Required fields *)

Lemma noRequired_mapRet {A B} (f : A -> B) (r : result A) :
  noRequired r -> noRequired (mapRet f r).
Proof. now destruct r. Qed.

Lemma unmarshalField_noRequired yaml data t field :
  noRequired (unmarshalField yaml data t field).
Proof. unfold unmarshalField. now destruct (yaml data t field) as [v [e|]]. Qed.

Lemma loadFromEnv_noRequired yaml Getenv names t field :
  noRequired (loadFromEnv yaml Getenv names t field).
Proof.
  rewrite loadFromEnv_firstSet. destruct (firstSet Getenv names) as [raw|]; [|exact I].
  unfold convert. destruct (KindOf (Indirect field));
    try apply unmarshalField_noRequired; now destruct field.
Qed.

Section InitNeverRequires.

Variable yaml : string -> type -> value -> value * option yaml_error.
Variable Getenv : string -> string.
Variable rec : type -> value -> list string -> result value.
Variable rounds : nat.
Hypothesis Hrec : forall t v p, noRequired (rec t v p).

Lemma applyDefault_init_noRequired fs t field :
  noRequired (applyDefault yaml InitOnly fs t field).
Proof.
  unfold applyDefault. destruct (DeepEqual field (Zero t)); [|exact I].
  destruct (negb _); [apply unmarshalField_noRequired|exact I].
Qed.

Lemma bindElems_noRequired path t i elems :
  noRequired (bindElems rec path t i elems).
Proof.
  revert i. induction elems as [|e elems IH]; intros i; simpl; [exact I|].
  destruct (KindOf (Indirect e));
    try (apply noRequired_mapRet, IH).
  pose proof (Hrec t e (path ++ [Str.Sprint i])) as H.
  destruct (rec t e _) as [e' [err|]| |]; try exact I.
  - exact H.
  - apply noRequired_mapRet, IH.
Qed.

Lemma growSlice_noRequired k path t idx field :
  noRequired (growSlice rec k path t idx field).
Proof.
  revert idx field. induction k as [|k IH]; intros idx field; simpl; [exact I|].
  pose proof (Hrec t (Zero t) (path ++ [Str.Sprint idx])) as H.
  destruct (rec t (Zero t) _) as [newVal [err|]| |]; try exact I.
  - exact H.
  - destruct (DeepEqual newVal (Zero t)); [exact I|apply IH].
Qed.

Lemma bindSlice_noRequired prefixes fs t elems :
  noRequired (bindSlice rec rounds prefixes fs t elems).
Proof.
  unfold bindSlice. destruct (0 <? Len elems)%nat.
  - apply noRequired_mapRet, bindElems_noRequired.
  - destruct (KindOf _); try exact I. apply growSlice_noRequired.
Qed.

Lemma bindNested_noRequired prefixes fs t field :
  noRequired (bindNested rec rounds prefixes fs t field).
Proof.
  revert t.
  induction field as [x|x|x|l _| |l _| |v IH] using value_nested_ind; intros t; simpl;
    try exact I.
  - apply Hrec.
  - apply noRequired_mapRet, bindSlice_noRequired.
  - apply noRequired_mapRet, bindSlice_noRequired.
  - apply noRequired_mapRet, IH.
Qed.

Lemma bindField_init_noRequired prefixes fs t field :
  noRequired (bindField yaml Getenv rec rounds InitOnly prefixes fs t field).
Proof.
  unfold bindField.
  pose proof (loadFromEnv_noRequired yaml Getenv (envNames prefixes fs) t field) as H1.
  destruct (loadFromEnv _ _ _ _ _) as [v1 [e1|]| |]; simpl; try exact I; [exact H1|].
  pose proof (applyDefault_init_noRequired fs t v1) as H2.
  destruct (applyDefault _ _ _ _ _) as [v2 [e2|]| |]; simpl; try exact I; [exact H2|].
  apply bindNested_noRequired.
Qed.

Lemma bindFields_init_noRequired prefixes fields vals :
  noRequired (bindFields yaml Getenv rec rounds InitOnly prefixes fields vals).
Proof.
  revert vals. induction fields as [|[fs t] fields IH]; intros [|v vals]; simpl;
    try exact I.
  destruct (negb (Exported fs)); [apply noRequired_mapRet, IH|].
  pose proof (bindField_init_noRequired prefixes fs t v) as H.
  destruct (bindField _ _ _ _ _ _ fs t v) as [v' [e|]| |]; try exact I; [exact H|].
  apply noRequired_mapRet, IH.
Qed.

End InitNeverRequires.

Lemma processInitTags_noRequired yaml Getenv fuel t config prefixes :
  noRequired (processInitTags yaml Getenv fuel t config prefixes).
Proof.
  revert t config prefixes. induction fuel as [|n IH]; intros t config prefixes;
    [exact I|].
  change (noRequired (bindStruct yaml Getenv (processInitTags yaml Getenv n) n
                        InitOnly t config prefixes)).
  destruct config; simpl; try exact I.
  apply noRequired_mapRet, bindFields_init_noRequired, IH.
Qed.

(** The decoder dispatch and the pipeline of [init] never build the
    "required, but blank" error. *)
Ltac split_cases :=
  repeat match goal with
    | |- context [match ?x with _ => _ end] => destruct x eqn:?
    | |- context [let '(_, _) := ?x in _] => destruct x eqn:?
    end.

Lemma unmarshalToml_noRequired toml data t config strict :
  isRequired (unmarshalToml toml data t config strict).2 = false.
Proof. unfold unmarshalToml. split_cases; reflexivity. Qed.

Lemma unmarshalJSON_noRequired json data t config strict :
  isRequired (unmarshalJSON json data t config strict).2 = false.
Proof. unfold unmarshalJSON. split_cases; reflexivity. Qed.

Lemma probeFormats_noRequired yaml yamlStrict toml json data t config strict :
  isRequired (probeFormats yaml yamlStrict toml json data t config strict).2 = false.
Proof.
  unfold probeFormats.
  pose proof (unmarshalToml_noRequired toml data t config strict) as H1.
  destruct (unmarshalToml toml data t config strict) as [c1 [e1|]]; [|reflexivity].
  destruct e1; try reflexivity; try discriminate H1;
  match goal with
  | |- context [unmarshalJSON json data t ?c strict] =>
      pose proof (unmarshalJSON_noRequired json data t c strict) as H2;
      destruct (unmarshalJSON json data t c strict) as [c2 [e2|]]; [|reflexivity]
  end;
  (destruct e2; try discriminate H2; simpl;
   repeat match goal with
     | |- context [if ?b then _ else _] => destruct b
     end; try reflexivity;
   destruct (unmarshalYaml _ _ _ _ _ _) as [c3 [[?|?]|]]; reflexivity).
Qed.

Lemma processFile_noRequired yaml yamlStrict toml json o t config file strict :
  isRequired (processFile yaml yamlStrict toml json o t config file strict).2 = false.
Proof.
  unfold processFile. destruct (ReadFile o file) as [data|]; [|reflexivity].
  destruct (_ || _).
  - destruct (unmarshalYaml _ _ _ _ _ _) as [c [e|]]; reflexivity.
  - destruct (Str.HasSuffix file ".toml"); [apply unmarshalToml_noRequired|].
    destruct (Str.HasSuffix file ".json"); [apply unmarshalJSON_noRequired|].
    apply probeFormats_noRequired.
Qed.

Lemma processFiles_noRequired yaml yamlStrict toml json c o t configFiles :
  forall config out,
    isRequired (processFiles yaml yamlStrict toml json c o t config configFiles out).2 = false.
Proof.
  induction configFiles as [|file rest IH]; intros config out; simpl; [reflexivity|].
  pose proof (processFile_noRequired yaml yamlStrict toml json o t config file
                (ErrorOnUnmatchedKeys c)) as H.
  destruct (processFile _ _ _ _ _ _ _ _ _) as [config' [e|]]; [exact H|apply IH].
Qed.

Lemma init_noRequired yaml yamlStrict toml json s o fuel t config watchMode requested r name :
  init yaml yamlStrict toml json s o fuel t config watchMode requested
  <> Ret r (Some (ErrRequired name)).
Proof.
  unfold init, loadWith.
  destruct (getConfigurationFiles _ _ _ _) as [[configFiles times] out].
  destruct (_ && _); [discriminate|].
  pose proof (processFiles_noRequired yaml yamlStrict toml json (config_of s) o t
                configFiles config out) as H.
  destruct (processFiles _ _ _ _ _ _ _ _ _ _) as [[config1 out1] [e|]].
  - intros [= _ ->]. discriminate H.
  - pose proof (processInitTags_noRequired yaml (os_Getenv o) fuel t config1
                  (if String.eqb (getENVPrefix (config_of s) o) "-"
                   then [] else [getENVPrefix (config_of s) o])) as N.
    unfold processInitTags in N.
    destruct (bindTags _ _ _ _ _ _ _) as [c2 e2| |]; try discriminate.
    intros [= _ ->]. exact N.
Qed.

Lemma Init_noRequired yaml yamlStrict toml json o fuel t config requested st st' name :
  Init yaml yamlStrict toml json o fuel t config requested st
  <> Ret st' (Some (ErrRequired name)).
Proof.
  unfold Init, callWith. destruct config as [l|v]; [|discriminate].
  destruct (heap st !! l) as [v|]; [|discriminate].
  pose proof (fun r => init_noRequired yaml yamlStrict toml json (service st) o fuel t v
                         false requested r name) as H.
  unfold init in H.
  destruct (loadWith _ _ _ _ _ _ _ _ _ _ _ _) as [[[[v' m] ch] out] e| |]; try discriminate.
  intros [= _ ->]. now apply (H (v', m, ch, out)).
Qed.

(** The blank check of a required field without default *)
Lemma applyDefault_required yaml b fs t field :
  Get (Tag fs) "default" = "" ->
  DeepEqual field (Zero t) = true ->
  applyDefault yaml b fs t field =
  match b with
  | Full => if String.eqb (Get (Tag fs) "required") "true"
            then Ret field (Some (ErrRequired (Name fs))) else Ret field None
  | InitOnly => Ret field None
  end.
Proof. intros Hd Hz. unfold applyDefault. now rewrite Hz, Hd. Qed.

Lemma bindNested_scalar rec rounds prefixes fs t field :
  scalar field = true -> bindNested rec rounds prefixes fs t field = Ret field None.
Proof. now destruct field. Qed.

(** The binder on a record whose front fields bind without error *)
Lemma bindTags_front yaml Getenv b fuel prefixes front fields vfront vfront' vals :
  length vfront = length front ->
  bindTags yaml Getenv b (S fuel) (TStruct front) (VStruct vfront) prefixes
  = Ret (VStruct vfront') None ->
  bindTags yaml Getenv b (S fuel) (TStruct (front ++ fields)) (VStruct (vfront ++ vals))
    prefixes
  = mapRet (fun l => VStruct (vfront' ++ l))
      (bindFields yaml Getenv (bindTags yaml Getenv b fuel) fuel b prefixes fields vals).
Proof.
  intros Hlen. simpl.
  destruct (bindFields _ _ _ _ _ _ front vfront) as [l [e|]| |] eqn:E; simpl;
    try discriminate.
  intros [= <-]. rewrite (bindFields_app _ _ _ _ _ _ _ _ _ _ _ Hlen E), mapRet_mapRet.
  reflexivity.
Qed.

(** ... and goes on with the fields after the next one, once that one is
    bound without error. *)
Lemma bindTags_field_next yaml Getenv b fuel prefixes front fs t fields
    vfront v vals vfront' v' :
  Exported fs = true ->
  length vfront = length front ->
  bindTags yaml Getenv b (S fuel) (TStruct front) (VStruct vfront) prefixes
  = Ret (VStruct vfront') None ->
  bindField yaml Getenv (bindTags yaml Getenv b fuel) fuel b prefixes fs t v
  = Ret v' None ->
  bindTags yaml Getenv b (S fuel) (TStruct (front ++ (fs, t) :: fields))
    (VStruct (vfront ++ v :: vals)) prefixes
  = mapRet (withFront (vfront' ++ [v']))
      (bindTags yaml Getenv b (S fuel) (TStruct fields) (VStruct vals) prefixes).
Proof.
  intros Hexp Hlen Hfront Hfield.
  rewrite (bindTags_front _ _ _ _ _ _ _ _ _ _ Hlen Hfront).
  simpl. rewrite Hexp. simpl. rewrite Hfield.
  destruct (bindFields _ _ _ _ _ _ fields vals) as [l e| |]; simpl; try reflexivity.
  now rewrite <- app_assoc.
Qed.

(** A required field whose default annotation parses to the zero value
    stays blank and [processTags] returns no error: the [required] tag is
    only looked at when there is no default annotation. *)
Lemma C1_required_zero_default_no_error :
  let port := Fixture.field "Port" [("required", "true"); ("default", "0")] in
  Get (Tag port) "required" = "true"
  /\ processTags Fixture.scalar (Fixture.env []) 3 (TStruct [(port, TInt)])
       (VStruct [VInt 0]) ["APP"]
     = Ret (VStruct [Zero TInt]) None.
Proof. split; reflexivity. Qed.

(** C1 (amended): for an exported field tagged required that carries no
    default annotation and is still blank after the environment was probed,
    [processTags] returns the error naming that field as soon as the
    fields before it are bound without error; [processInitTags] goes on
    with the fields after it and leaves a scalar field at its zero value;
    and neither [processInitTags] nor [Init] ever returns that error, on
    any input. *)
Theorem C1_required_blank yaml Getenv fuel prefixes front fs t fields vfront v vals v' :
  Exported fs = true ->
  Get (Tag fs) "required" = "true" ->
  Get (Tag fs) "default" = "" ->
  length vfront = length front ->
  loadFromEnv yaml Getenv (envNames prefixes fs) t v = Ret v' None ->
  DeepEqual v' (Zero t) = true ->
  (forall vfront',
      processTags yaml Getenv (S fuel) (TStruct front) (VStruct vfront) prefixes
      = Ret (VStruct vfront') None ->
      processTags yaml Getenv (S fuel) (TStruct (front ++ (fs, t) :: fields))
        (VStruct (vfront ++ v :: vals)) prefixes
      = Ret (VStruct (vfront' ++ v' :: vals)) (Some (ErrRequired (Name fs))))
  /\ (forall vfront',
      scalar v' = true ->
      processInitTags yaml Getenv (S fuel) (TStruct front) (VStruct vfront) prefixes
      = Ret (VStruct vfront') None ->
      processInitTags yaml Getenv (S fuel) (TStruct (front ++ (fs, t) :: fields))
        (VStruct (vfront ++ v :: vals)) prefixes
      = mapRet (withFront (vfront' ++ [Zero t]))
          (processInitTags yaml Getenv (S fuel) (TStruct fields) (VStruct vals) prefixes))
  /\ (forall fuel' t' config prefixes' r name,
      processInitTags yaml Getenv fuel' t' config prefixes'
      <> Ret r (Some (ErrRequired name)))
  /\ (forall yamlStrict toml json o fuel' t' config requested st st' name,
      Init yaml yamlStrict toml json o fuel' t' config requested st
      <> Ret st' (Some (ErrRequired name))).
Proof.
  intros Hexp Hreq Hdef Hlen Henv Hzero. split; [|split; [|split]].
  - intros vfront' Hfront. unfold processTags in *.
    rewrite (bindTags_front _ _ _ _ _ _ _ _ _ _ Hlen Hfront).
    simpl. rewrite Hexp. simpl. unfold bindField. rewrite Henv. simpl.
    rewrite (applyDefault_required _ _ _ _ _ Hdef Hzero), Hreq. reflexivity.
  - intros vfront' Hsc Hfront. unfold processInitTags in *.
    rewrite (bindTags_front _ _ _ _ _ _ _ _ _ _ Hlen Hfront).
    assert (v' = Zero t) as Hv by now apply DeepEqual_eq.
    simpl. rewrite Hexp. simpl. unfold bindField. rewrite Henv. simpl.
    rewrite (applyDefault_required _ _ _ _ _ Hdef Hzero). simpl.
    rewrite (bindNested_scalar _ _ _ _ _ _ Hsc), <- Hv.
    destruct (bindFields _ _ _ _ _ _ fields vals) as [l e| |]; simpl; try reflexivity.
    now rewrite <- app_assoc.
  - intros fuel' t' config prefixes' r name H.
    pose proof (processInitTags_noRequired yaml Getenv fuel' t' config prefixes') as N.
    now rewrite H in N.
  - intros. apply Init_noRequired.
Qed.

Lemma C1_required_blank_witness :
  let host := Fixture.field "Host" [("default", "localhost")] in
  let port := Fixture.field "Port" [("required", "true")] in
  let name := Fixture.field "Name" [] in
  let T := TStruct [(host, TString); (port, TInt); (name, TString)] in
  let getenv := Fixture.env [("APP_NAME", "svc")] in
  processTags Fixture.scalar getenv 3 T (VStruct [VString ""; VInt 0; VString ""]) ["APP"]
  = Ret (VStruct [VString "localhost"; VInt 0; VString ""]) (Some (ErrRequired "Port"))
  /\ processInitTags Fixture.scalar getenv 3 T
       (VStruct [VString ""; VInt 0; VString ""]) ["APP"]
     = Ret (VStruct [VString "localhost"; VInt 0; VString "svc"]) None.
Proof.
  intros host port name T getenv.
  pose proof (C1_required_blank Fixture.scalar getenv 2 ["APP"]
                [(host, TString)] port TInt [(name, TString)]
                [VString ""] (VInt 0) [VString ""] (VInt 0)
                eq_refl eq_refl eq_refl eq_refl eq_refl eq_refl) as [HLoad [HInit _]].
  split.
  - exact (HLoad [VString "localhost"] eq_refl).
  - exact (HInit [VString "localhost"] eq_refl eq_refl).
Defined.

(** Through the facade: the file sets nothing, the port is required. *)
Example Load_required_field :
  let T := TStruct [(Fixture.field "Port" [("required", "true")], TInt)] in
  (exists st,
     Load Fixture.yaml_Unmarshal Fixture.yaml_UnmarshalStrict Fixture.toml_Decode
       Fixture.json_Decode Example1.os2 3 T (PtrTo 0) ["config.yaml"] Example1.st0
     = Ret st (Some (ErrRequired "Port")))
  /\ (exists st,
        Init Fixture.yaml_Unmarshal Fixture.yaml_UnmarshalStrict Fixture.toml_Decode
          Fixture.json_Decode Example1.os2 3 T (PtrTo 0) ["config.yaml"] Example1.st0
        = Ret st None
        /\ heap st !! 0 = Some (VStruct [VInt 0])).
Proof. split; eexists; vm_compute; auto. Qed.

(** ** Precedence of the environment *)




(** ** Boolean fields through the binder *)

(** A variable set to the empty string is not a binding: the boolean
    field keeps the [true] the files gave it.  And a variable set to
    ["0"] converts to [false], which the blank check that follows takes
    for an unset field: the default annotation is decoded over it and the
    field ends as [true]. *)
Lemma C7_empty_value_and_default :
  let debug := Fixture.field "Debug" [] in
  let enabled := Fixture.field "Enabled" [("default", "true")] in
  Str.ToLower "" ∈ falsy
  /\ processTags Fixture.scalar (Fixture.env [("APP_DEBUG", "")]) 3
       (TStruct [(debug, TBool)]) (VStruct [VBool true]) ["APP"]
     = Ret (VStruct [VBool true]) None
  /\ Str.ToLower "0" ∈ falsy
  /\ firstSet (Fixture.env [("APP_ENABLED", "0")]) (envNames ["APP"] enabled) = Some "0"
  /\ processTags Fixture.scalar (Fixture.env [("APP_ENABLED", "0")]) 3
       (TStruct [(enabled, TBool)]) (VStruct [VBool false]) ["APP"]
     = Ret (VStruct [VBool true]) None.
Proof.
  intros debug enabled. split; [apply elem_of_cons; now left|].
  split; [reflexivity|].
  split; [apply elem_of_cons; right; apply elem_of_cons; now left|].
  split; reflexivity.
Qed.

(** C7 (amended): a boolean field is bound from the first candidate
    variable whose value is not empty (an empty value binds nothing).
    When that value, lower-cased, is none of ["0"], ["f"], ["false"] the
    field ends the binding pass as [true], whatever it held and whatever
    its tags say, and the binder goes on with the next field.  When it is
    one of them the field is set to [false], and the blank check then
    treats it as unset: without default annotation the field ends as
    [false] (and [processTags] fails at it when it is tagged required),
    with a default annotation it ends as the value decoded from the
    annotation. *)
Theorem C7_bool_env_binding yaml Getenv b fuel prefixes front fs fields vfront (x : bool)
    vals vfront' raw :
  Exported fs = true ->
  length vfront = length front ->
  firstSet Getenv (envNames prefixes fs) = Some raw ->
  bindTags yaml Getenv b (S fuel) (TStruct front) (VStruct vfront) prefixes
  = Ret (VStruct vfront') None ->
  raw <> ""
  /\ (Str.ToLower raw ∉ falsy ->
      bindTags yaml Getenv b (S fuel) (TStruct (front ++ (fs, TBool) :: fields))
        (VStruct (vfront ++ VBool x :: vals)) prefixes
      = mapRet (withFront (vfront' ++ [VBool true]))
          (bindTags yaml Getenv b (S fuel) (TStruct fields) (VStruct vals) prefixes))
  /\ (Str.ToLower raw ∈ falsy ->
      Get (Tag fs) "default" = "" ->
      b = InitOnly \/ String.eqb (Get (Tag fs) "required") "true" = false ->
      bindTags yaml Getenv b (S fuel) (TStruct (front ++ (fs, TBool) :: fields))
        (VStruct (vfront ++ VBool x :: vals)) prefixes
      = mapRet (withFront (vfront' ++ [VBool false]))
          (bindTags yaml Getenv b (S fuel) (TStruct fields) (VStruct vals) prefixes))
  /\ (Str.ToLower raw ∈ falsy ->
      forall d,
        Get (Tag fs) "default" <> "" ->
        yaml (Get (Tag fs) "default") TBool (VBool false) = (VBool d, None) ->
        bindTags yaml Getenv b (S fuel) (TStruct (front ++ (fs, TBool) :: fields))
          (VStruct (vfront ++ VBool x :: vals)) prefixes
        = mapRet (withFront (vfront' ++ [VBool d]))
            (bindTags yaml Getenv b (S fuel) (TStruct fields) (VStruct vals) prefixes))
  /\ (Str.ToLower raw ∈ falsy ->
      Get (Tag fs) "default" = "" ->
      b = Full ->
      Get (Tag fs) "required" = "true" ->
      bindTags yaml Getenv b (S fuel) (TStruct (front ++ (fs, TBool) :: fields))
        (VStruct (vfront ++ VBool x :: vals)) prefixes
      = Ret (VStruct (vfront' ++ VBool false :: vals)) (Some (ErrRequired (Name fs)))).
Proof.
  intros Hexp Hlen Hset Hfront.
  assert (loadFromEnv yaml Getenv (envNames prefixes fs) TBool (VBool x)
          = Ret (VBool (boolOfEnv raw)) None) as Henv.
  { now rewrite loadFromEnv_firstSet, Hset. }
  split; [exact (firstSet_not_empty _ _ _ Hset)|].
  split; [|split; [|split]].
  - intros Hout.
    apply (bindTags_field_next _ _ _ _ _ _ _ _ _ _ _ _ _ _ Hexp Hlen Hfront).
    unfold bindField. rewrite Henv.
    destruct (boolOfEnv raw) eqn:E; [reflexivity|].
    apply boolOfEnv_falsy in E. contradiction.
  - intros Hin Hd Hreq. apply boolOfEnv_falsy in Hin.
    apply (bindTags_field_next _ _ _ _ _ _ _ _ _ _ _ _ _ _ Hexp Hlen Hfront).
    unfold bindField. rewrite Henv, Hin. cbn [andThen].
    rewrite (applyDefault_required yaml b fs TBool (VBool false) Hd eq_refl).
    destruct Hreq as [->|Hreq]; [reflexivity|]. rewrite Hreq. now destruct b.
  - intros Hin d Hd Hy. apply boolOfEnv_falsy in Hin.
    apply (bindTags_field_next _ _ _ _ _ _ _ _ _ _ _ _ _ _ Hexp Hlen Hfront).
    unfold bindField. rewrite Henv, Hin. cbn [andThen].
    unfold applyDefault. apply String.eqb_neq in Hd.
    change (DeepEqual (VBool false) (Zero TBool)) with true. cbv iota.
    rewrite Hd. simpl. unfold unmarshalField. now rewrite Hy.
  - intros Hin Hd -> Hreq. apply boolOfEnv_falsy in Hin.
    rewrite (bindTags_front _ _ _ _ _ _ _ _ _ _ Hlen Hfront).
    simpl. rewrite Hexp. simpl. unfold bindField. rewrite Henv, Hin. cbn [andThen].
    rewrite (applyDefault_required yaml Full fs TBool (VBool false) Hd eq_refl), Hreq.
    reflexivity.
Qed.

Lemma C7_bool_env_binding_witness :
  let debug := Fixture.field "Debug" [] in
  processTags Fixture.scalar (Fixture.env [("APP_DEBUG", "FALSE")]) 3
    (TStruct [(debug, TBool)]) (VStruct [VBool true]) ["APP"]
  = Ret (VStruct [VBool false]) None
  /\ processTags Fixture.scalar (Fixture.env [("APP_DEBUG", "yes")]) 3
       (TStruct [(debug, TBool)]) (VStruct [VBool false]) ["APP"]
     = Ret (VStruct [VBool true]) None.
Proof.
  intros debug. split.
  - refine (proj1 (proj2 (proj2 (C7_bool_env_binding Fixture.scalar
              (Fixture.env [("APP_DEBUG", "FALSE")]) Full 2 ["APP"] [] debug [] [] true []
              [] "FALSE" eq_refl eq_refl eq_refl eq_refl))) _ eq_refl _).
    + apply elem_of_cons. right. apply elem_of_cons. right. apply elem_of_cons. right.
      apply elem_of_cons. now left.
    + now right.
  - refine (proj1 (proj2 (C7_bool_env_binding Fixture.scalar
              (Fixture.env [("APP_DEBUG", "yes")]) Full 2 ["APP"] [] debug [] [] false []
              [] "yes" eq_refl eq_refl eq_refl eq_refl)) _).
    intros H. repeat (apply elem_of_cons in H as [H|H]; [discriminate H|]).
    now apply elem_of_nil in H.
Defined.

(** ** Sequences grown from the environment *)

Lemma getPrefixForStruct_named prefixes fs :
  Anonymous fs && String.eqb (Get (Tag fs) "anonymous") "true" = false ->
  getPrefixForStruct prefixes fs = prefixes ++ [Name fs].
Proof. intros H. unfold getPrefixForStruct. now rewrite H. Qed.







(** ** Byte strings, suffixes and extensions *)

Lemma string_app_cons c a b : String c a +:+ b = String c (a +:+ b).
Proof. reflexivity. Qed.

Lemma string_app_nil_l s : "" +:+ s = s.
Proof. reflexivity. Qed.

Lemma string_app_nil_r s : s +:+ "" = s.
Proof.
  induction s as [|c s IH]; [reflexivity|]. now rewrite string_app_cons, IH.
Qed.

Lemma string_app_assoc a b c : (a +:+ b) +:+ c = a +:+ (b +:+ c).
Proof.
  induction a as [|x a IH]; [reflexivity|]. now rewrite !string_app_cons, IH.
Qed.

Lemma string_length_app a b :
  String.length (a +:+ b) = String.length a + String.length b.
Proof.
  induction a as [|x a IH]; [reflexivity|]. rewrite string_app_cons. simpl.
  now rewrite IH.
Qed.

Lemma substring_all s : String.substring 0 (String.length s) s = s.
Proof. induction s as [|c s IH]; simpl; [reflexivity|now rewrite IH]. Qed.

Lemma substring_front a b : String.substring 0 (String.length a) (a +:+ b) = a.
Proof.
  induction a as [|x a IH]; [rewrite string_app_nil_l; now destruct b|].
  rewrite string_app_cons. simpl. now rewrite IH.
Qed.

Lemma substring_back a b :
  String.substring (String.length a) (String.length b) (a +:+ b) = b.
Proof.
  induction a as [|x a IH]; [apply substring_all|].
  rewrite string_app_cons. exact IH.
Qed.

Lemma substring_split s : forall m,
  m <= String.length s ->
  s = String.substring 0 m s +:+ String.substring m (String.length s - m) s.
Proof.
  induction s as [|c s IH]; intros [|m] Hm; simpl in *; try reflexivity; try lia.
  - rewrite string_app_nil_l. now rewrite substring_all.
  - rewrite string_app_cons, <- (IH m) by lia. reflexivity.
Qed.

Lemma HasSuffix_app a b : Str.HasSuffix (a +:+ b) b = true.
Proof.
  unfold Str.HasSuffix. rewrite string_length_app.
  replace (String.length a + String.length b - String.length b) with (String.length a)
    by lia.
  rewrite substring_back, String.eqb_refl, andb_true_r. apply Nat.leb_le. lia.
Qed.

Lemma TrimSuffix_app a b : Str.TrimSuffix (a +:+ b) b = a.
Proof.
  unfold Str.TrimSuffix. rewrite HasSuffix_app, string_length_app.
  replace (String.length a + String.length b - String.length b) with (String.length a)
    by lia.
  apply substring_front.
Qed.

Lemma HasSuffix_split s suffix :
  Str.HasSuffix s suffix = true -> exists stem, s = stem +:+ suffix.
Proof.
  unfold Str.HasSuffix. intros H. apply andb_true_iff in H as [Hle Heq].
  apply Nat.leb_le in Hle. apply String.eqb_eq in Heq.
  exists (String.substring 0 (String.length s - String.length suffix) s).
  pose proof (substring_split s (String.length s - String.length suffix)) as Hs.
  replace (String.length s - (String.length s - String.length suffix))
    with (String.length suffix) in Hs by lia.
  rewrite Heq in Hs. apply Hs. lia.
Qed.

Lemma string_of_list_ascii_app l1 l2 :
  string_of_list_ascii (l1 ++ l2) = string_of_list_ascii l1 +:+ string_of_list_ascii l2.
Proof.
  induction l1 as [|c l1 IH]; [reflexivity|]. simpl string_of_list_ascii.
  now rewrite string_app_cons, IH.
Qed.

Lemma list_ascii_of_string_app a b :
  list_ascii_of_string (a +:+ b) = list_ascii_of_string a ++ list_ascii_of_string b.
Proof.
  induction a as [|c a IH]; [reflexivity|]. rewrite string_app_cons. simpl.
  now rewrite IH.
Qed.

(** What [path.Ext] returns is a suffix of the path. *)
Lemma ext_scan_suffix rev_prefix : forall seen,
  exists stem,
    string_of_list_ascii (rev rev_prefix) +:+ seen
    = stem +:+ Str.ext_scan rev_prefix seen.
Proof.
  induction rev_prefix as [|c r IH]; intros seen; simpl.
  - exists seen. now rewrite string_app_nil_r.
  - rewrite string_of_list_ascii_app, string_app_assoc.
    change (string_of_list_ascii [c] +:+ seen) with (String c seen).
    destruct (Ascii.eqb c "/").
    + eexists. now rewrite string_app_nil_r.
    + destruct (Ascii.eqb c ".").
      * now eexists.
      * apply IH.
Qed.

Lemma Ext_suffix path : exists stem, path = stem +:+ Str.Ext path.
Proof.
  unfold Str.Ext.
  destruct (ext_scan_suffix (rev (list_ascii_of_string path)) "") as [stem H].
  exists stem.
  now rewrite rev_involutive, string_of_list_ascii_of_string, string_app_nil_r in H.
Qed.

Lemma rev_middle {A} (a b : list A) x : rev (a ++ x :: b) = rev b ++ x :: rev a.
Proof. rewrite rev_app_distr. simpl. now rewrite <- app_assoc. Qed.

Lemma plain_snoc l c :
  forallb (fun c => negb (Ascii.eqb c "/") && negb (Ascii.eqb c ".")) (l ++ [c]) = true ->
  forallb (fun c => negb (Ascii.eqb c "/") && negb (Ascii.eqb c ".")) l = true
  /\ Ascii.eqb c "/" = false /\ Ascii.eqb c "." = false.
Proof.
  rewrite forallb_app. simpl. rewrite andb_true_r. intros H.
  apply andb_true_iff in H as [Hl Hc]. apply andb_true_iff in Hc as [H1 H2].
  apply negb_true_iff in H1, H2. auto.
Qed.

(** [path.Ext] walks back over a name without dot and slash. *)
Lemma ext_scan_plain l stop r :
  forallb (fun c => negb (Ascii.eqb c "/") && negb (Ascii.eqb c ".")) l = true ->
  forall seen,
    Str.ext_scan (rev l ++ stop :: r) seen
    = Str.ext_scan (stop :: r) (string_of_list_ascii l +:+ seen)
    /\ Str.ext_scan (rev l) seen = "".
Proof.
  induction l as [|c l IH] using rev_ind; intros Hl seen; [now split|].
  apply plain_snoc in Hl as [Hl [H1 H2]].
  rewrite rev_app_distr. simpl. rewrite H1, H2.
  rewrite string_of_list_ascii_app, string_app_assoc.
  change (string_of_list_ascii [c] +:+ seen) with (String c seen).
  apply (IH Hl).
Qed.

(** The extension of [stem.ext], and of a name without dot *)
Lemma Ext_dot stem ext :
  plain ext = true -> Str.Ext (stem +:+ "." +:+ ext) = "." +:+ ext.
Proof.
  intros H. unfold Str.Ext.
  rewrite list_ascii_of_string_app.
  change (list_ascii_of_string ("." +:+ ext)) with ("."%char :: list_ascii_of_string ext).
  rewrite rev_middle, (proj1 (ext_scan_plain _ _ _ H _)). simpl.
  now rewrite string_of_list_ascii_of_string, string_app_nil_r.
Qed.

Lemma Ext_none dir name :
  plain name = true ->
  Str.Ext name = "" /\ Str.Ext (dir +:+ "/" +:+ name) = "".
Proof.
  intros H. unfold Str.Ext. split.
  - apply (ext_scan_plain _ "/"%char [] H).
  - rewrite list_ascii_of_string_app.
    change (list_ascii_of_string ("/" +:+ name)) with ("/"%char :: list_ascii_of_string name).
    now rewrite rev_middle, (proj1 (ext_scan_plain _ _ _ H _)).
Qed.

(** ** The source resolver, candidate by candidate *)

Lemma timesOf_nil o : timesOf o [] ∅.
Proof.
  intros path. rewrite lookup_empty. destruct (decide (path ∈ [])) as [H|_]; [|reflexivity].
  now apply elem_of_nil in H.
Qed.

Lemma timesOf_insert o keys results path fileInfo :
  timesOf o keys results ->
  os_Stat o path = Some fileInfo ->
  IsRegular fileInfo = true ->
  timesOf o (keys ++ [path]) (<[path := ModTime fileInfo]> results).
Proof.
  intros Inv Hstat Hreg q. destruct (decide (path = q)) as [->|Hne].
  - rewrite lookup_insert_eq. unfold modTimeOf. rewrite Hstat, Hreg.
    destruct (decide (q ∈ keys ++ [q])) as [_|Hn]; [reflexivity|].
    exfalso. apply Hn. apply elem_of_app. right. apply list_elem_of_singleton. reflexivity.
  - rewrite lookup_insert_ne by exact Hne. rewrite (Inv q).
    destruct (decide (q ∈ keys)) as [Hin|Hout];
      destruct (decide (q ∈ keys ++ [path])) as [Hin'|Hout']; try reflexivity.
    + exfalso. apply Hout'. apply elem_of_app. now left.
    + exfalso. apply elem_of_app in Hin' as [Hin'|Hin']; [contradiction|].
      apply list_elem_of_singleton in Hin'. congruence.
Qed.

Lemma resolveCandidate_spec c o watchMode keys results out file :
  timesOf o keys results ->
  exists results',
    resolveCandidate c o watchMode (keys, results, out) file
    = (keys ++ candidateSources c o file, results',
       out ++ candidateDiagnostics c o watchMode file)
    /\ timesOf o (keys ++ candidateSources c o file) results'.
Proof.
  intros Inv.
  unfold resolveCandidate, getConfigurationFileWithENVPrefix, candidateSources,
    candidateDiagnostics, regular.
  destruct (os_Stat o file) as [f1|] eqn:E1;
    [destruct (IsRegular f1) eqn:R1|];
    (destruct (os_Stat o (envFileName file (GetEnvironment c o))) as [f2|] eqn:E2;
       [destruct (IsRegular f2) eqn:R2|]);
    (destruct (os_Stat o (envFileName file "example")) as [f3|] eqn:E3;
       [destruct (IsRegular f3) eqn:R3|]);
    simpl; rewrite ?app_nil_r, <- ?app_assoc; simpl;
    eexists; (split; [reflexivity|]);
    rewrite ?app_nil_r;
    repeat match goal with
      | |- timesOf _ (_ ++ [_; _]) _ =>
          rewrite (app_assoc _ [_] [_] : _ ++ [_; _] = (_ ++ [_]) ++ [_])
      | |- timesOf _ (_ ++ [_]) (<[_ := ModTime _]> _) =>
          eapply timesOf_insert; [|eassumption|assumption]
      end;
    exact Inv.
Qed.

Lemma resolve_fold c o watchMode candidates :
  forall keys results out,
    timesOf o keys results ->
    exists results',
      foldl (resolveCandidate c o watchMode) (keys, results, out) candidates
      = (keys ++ flat_map (candidateSources c o) candidates, results',
         out ++ flat_map (candidateDiagnostics c o watchMode) candidates)
      /\ timesOf o (keys ++ flat_map (candidateSources c o) candidates) results'.
Proof.
  induction candidates as [|file candidates IH]; intros keys results out Inv.
  - exists results. simpl. rewrite !app_nil_r. now split.
  - change (foldl (resolveCandidate c o watchMode) (keys, results, out) (file :: candidates))
      with (foldl (resolveCandidate c o watchMode)
              (resolveCandidate c o watchMode (keys, results, out) file) candidates).
    destruct (resolveCandidate_spec c o watchMode keys results out file Inv)
      as [results1 [-> Inv1]].
    destruct (IH _ _ (out ++ candidateDiagnostics c o watchMode file) Inv1)
      as [results2 [-> Inv2]].
    exists results2. simpl flat_map. rewrite !app_assoc. now split.
Qed.

(** C5: the resolver walks the candidates from the last to the first;
    each contributes its literal path if that is a regular file, then,
    independently, its environment-suffixed variant if that is a regular
    file, and only when neither exists the example variant, with the
    "using example file" line unless silent or in watch mode, or nothing;
    the map holds the modification time of exactly the resolved paths.
    The variant of [stem.ext] for the name [env] is [stem.env.ext], and
    that of a name without extension is the name followed by [.env]. *)
Theorem C5_source_resolution c o watchMode requested :
  let r := getConfigurationFiles c o watchMode requested in
  r.1.1 = flat_map (candidateSources c o) (rev requested)
  /\ timesOf o r.1.1 r.1.2
  /\ r.2 = (if negb watchMode && (Debug c || Verbose c)
            then [PrintCurrentEnvironment (GetEnvironment c o)] else [])
           ++ flat_map (candidateDiagnostics c o watchMode) (rev requested)
  /\ (forall stem ext env,
        plain ext = true ->
        envFileName (stem +:+ "." +:+ ext) env = stem +:+ "." +:+ env +:+ "." +:+ ext)
  /\ (forall dir name env,
        plain name = true ->
        envFileName name env = name +:+ "." +:+ env
        /\ envFileName (dir +:+ "/" +:+ name) env = dir +:+ "/" +:+ name +:+ "." +:+ env).
Proof.
  unfold getConfigurationFiles.
  destruct (resolve_fold c o watchMode (rev requested) [] ∅
              (if negb watchMode && (Debug c || Verbose c)
               then [PrintCurrentEnvironment (GetEnvironment c o)] else [])
              (timesOf_nil o))
    as [results [-> Inv]].
  simpl in *. repeat split; auto.
  - intros stem ext env H. unfold envFileName. rewrite (Ext_dot stem ext H).
    change (String.eqb ("." +:+ ext) "") with false. cbv iota.
    now rewrite TrimSuffix_app.
  - unfold envFileName. now rewrite (proj1 (Ext_none dir name H)).
  - unfold envFileName. rewrite (proj2 (Ext_none dir name H)).
    cbv iota. change (String.eqb "" "") with true. cbv iota.
    now rewrite !string_app_assoc.
Qed.

Lemma C5_source_resolution_witness :
  let o := {| environ := ∅;
              files := list_to_map
                [("config.yaml", {| IsRegular := true; ModTime := 5; Data := Some "" |});
                 ("config.production.yaml",
                  {| IsRegular := true; ModTime := 7; Data := Some "" |});
                 ("config.example.yaml",
                  {| IsRegular := true; ModTime := 1; Data := Some "" |});
                 ("other.example", {| IsRegular := true; ModTime := 2; Data := Some "" |})];
              Args0 := "svc" |} in
  let c := {| Environment := "production"; ENVPrefix := ""; Debug := false;
              Verbose := false; Silent := false; AutoReload := false;
              AutoReloadInterval := 0; AutoReloadCallback := false;
              ErrorOnUnmatchedKeys := false |} in
  (getConfigurationFiles c o false ["config.yaml"; "other"; "none.json"]).1.1
  = ["other.example"; "config.yaml"; "config.production.yaml"]
  /\ (getConfigurationFiles c o false ["config.yaml"; "other"; "none.json"]).2
     = [PrintNotFound "none.json"; PrintUsingExample "other" "other.example"]
  /\ envFileName "config.yaml" "production" = "config.production.yaml"
  /\ envFileName "other" "example" = "other.example"
  /\ envFileName "conf.d/app" "production" = "conf.d/app.production".
Proof.
  intros o c.
  pose proof (C5_source_resolution c o false ["config.yaml"; "other"; "none.json"])
    as (Hkeys & _ & Hout & Hext & Hnone).
  split; [exact Hkeys|]. split; [exact Hout|].
  split; [exact (Hext "config" "yaml" "production" eq_refl)|].
  split; [exact (proj1 (Hnone "" "other" "example" eq_refl))|].
  exact (proj2 (Hnone "conf.d" "app" "production" eq_refl)).
Defined.

Example resolve_base_and_env :
  let o := {| environ := ∅;
              files := list_to_map
                [("config.yaml", {| IsRegular := true; ModTime := 5; Data := Some "" |});
                 ("config.production.yaml",
                  {| IsRegular := true; ModTime := 7; Data := Some "" |});
                 ("config.example.yaml",
                  {| IsRegular := true; ModTime := 1; Data := Some "" |});
                 ("other.example", {| IsRegular := true; ModTime := 2; Data := Some "" |})];
              Args0 := "svc" |} in
  let c := {| Environment := "production"; ENVPrefix := ""; Debug := false;
              Verbose := false; Silent := false; AutoReload := false;
              AutoReloadInterval := 0; AutoReloadCallback := false;
              ErrorOnUnmatchedKeys := false |} in
  (getConfigurationFiles c o false ["config.yaml"; "other"; "none.json"]).1.1
  = ["other.example"; "config.yaml"; "config.production.yaml"]
  /\ (getConfigurationFiles c o false ["config.yaml"; "other"; "none.json"]).2
     = [PrintNotFound "none.json"; PrintUsingExample "other" "other.example"]
  /\ (getConfigurationFiles c o true ["config.yaml"; "other"; "none.json"]).2
     = [PrintNotFound "none.json"].
Proof. vm_compute. auto. Qed.

(** ** The change test of watch mode *)

Lemma candidateDiagnostics_prints c o watchMode file :
  forallb (fun e => negb (isCall e)) (candidateDiagnostics c o watchMode file) = true.
Proof.
  unfold candidateDiagnostics.
  repeat match goal with |- context [if ?b then _ else _] => destruct b end; reflexivity.
Qed.

Lemma resolver_prints c o watchMode requested :
  forallb (fun e => negb (isCall e)) (getConfigurationFiles c o watchMode requested).2 = true.
Proof.
  unfold getConfigurationFiles.
  destruct (resolve_fold c o watchMode (rev requested) [] ∅
              (if negb watchMode && (Debug c || Verbose c)
               then [PrintCurrentEnvironment (GetEnvironment c o)] else [])
              (timesOf_nil o))
    as [results [-> _]].
  cbn [snd]. rewrite forallb_app. apply andb_true_iff. split.
  - destruct (negb watchMode && (Debug c || Verbose c)); reflexivity.
  - induction (rev requested) as [|file l IH]; simpl; [reflexivity|].
    now rewrite forallb_app, candidateDiagnostics_prints, IH.
Qed.

Lemma deferredPrint_prints c requested config err :
  forallb (fun e => negb (isCall e)) (deferredPrint c requested config err) = true.
Proof. unfold deferredPrint. destruct (Debug c || Verbose c), err; reflexivity. Qed.

Lemma sourcesChanged_false times recorded :
  (forall f tm, times !! f = Some tm ->
                exists v, recorded !! f = Some v /\ After tm v = false) ->
  sourcesChanged times recorded = false.
Proof.
  intros H. unfold sourcesChanged.
  destruct (existsb _ _) eqn:E; [|reflexivity].
  apply existsb_exists in E as [[f tm] [Hin Hf]].
  apply list_elem_of_In, elem_of_map_to_list in Hin.
  destruct (H f tm Hin) as [v [Hv Hafter]]. simpl in Hf.
  rewrite Hv, Hafter in Hf. discriminate.
Qed.

(** [config.yaml], loaded at time 10, is replaced by an older
    [config.example.yaml]: the resolved set has one entry as the recorded
    one has, and no entry is newer than its recorded time, for it has
    none; [load] in watch mode decodes the file, binds, and reports a
    change. *)
Lemma C6_replaced_by_older_example :
  let o := {| environ := ∅;
              files := {[ "config.example.yaml" :=
                            {| IsRegular := true; ModTime := 5; Data := Some "port: 81" |} ]};
              Args0 := "svc" |} in
  let s := service Example1.st1 in
  let times := (getConfigurationFiles (config_of s) o true ["config.yaml"]).1.2 in
  configModTimes s = {[ "config.yaml" := 10%Z ]}
  /\ times = {[ "config.example.yaml" := 5%Z ]}
  /\ size times = size (configModTimes s)
  /\ (forall f tm v, times !! f = Some tm -> configModTimes s !! f = Some v ->
                     After tm v = false)
  /\ load Fixture.yaml_Unmarshal Fixture.yaml_UnmarshalStrict Fixture.toml_Decode
       Fixture.json_Decode s o 3 Example1.T (VStruct [VInt 80]) true ["config.yaml"]
     = Ret (VStruct [VInt 81], {[ "config.example.yaml" := 5%Z ]}, true,
            [CallProcessFile "config.example.yaml"; CallBinder Full []]) None.
Proof.
  intros o s times.
  assert (configModTimes s = {[ "config.yaml" := 10%Z ]}) as Hrec
      by (vm_compute; reflexivity).
  assert (times = {[ "config.example.yaml" := 5%Z ]}) as Htimes
      by (vm_compute; reflexivity).
  split; [exact Hrec|]. split; [exact Htimes|].
  split; [vm_compute; reflexivity|].
  split; [|vm_compute; reflexivity].
  intros f tm v H1 H2. rewrite Htimes in H1. rewrite Hrec in H2.
  apply lookup_singleton_Some in H1 as [<- _].
  apply lookup_singleton_Some in H2 as [E _]. discriminate E.
Qed.

(** C6 (amended): in watch mode, when the resolved source set has as
    many entries as the recorded one and every resolved entry has a
    recorded time that its modification time is not after (an entry
    without recorded time counts as changed), [load] (and [init]) return
    [nil, false] with the record and the recorded times untouched; the
    trace holds what the resolver printed and the deferred dump, and no
    call to [processFile] or to the binder. *)
Theorem C6_watch_unchanged yaml yamlStrict toml json b s o fuel t config requested
    configFiles times out :
  getConfigurationFiles (config_of s) o true requested = (configFiles, times, out) ->
  size times = size (configModTimes s) ->
  (forall f tm, times !! f = Some tm ->
                exists v, configModTimes s !! f = Some v /\ After tm v = false) ->
  loadWith yaml yamlStrict toml json b s o fuel t config true requested
  = Ret (config, configModTimes s, false,
         out ++ deferredPrint (config_of s) requested config None) None
  /\ forallb (fun e => negb (isCall e))
       (out ++ deferredPrint (config_of s) requested config None) = true.
Proof.
  intros Hres Hsize Hold. split.
  - unfold loadWith. rewrite Hres, Hsize, Nat.eqb_refl.
    now rewrite (sourcesChanged_false _ _ Hold).
  - rewrite forallb_app, deferredPrint_prints, andb_true_r.
    pose proof (resolver_prints (config_of s) o true requested) as H.
    now rewrite Hres in H.
Qed.

Example first_load :
  exists st, Example1.load1 = Ret st None
             /\ heap st !! 0 = Some (VStruct [VInt 80])
             /\ configModTimes (service st) !! "config.yaml" = Some 10%Z
             /\ trace st = [CallProcessFile "config.yaml"; CallBinder Full []].
Proof. eexists. vm_compute. repeat split. Qed.

Lemma C6_watch_unchanged_witness :
  load Fixture.yaml_Unmarshal Fixture.yaml_UnmarshalStrict Fixture.toml_Decode
    Fixture.json_Decode (service Example1.st1) Example1.os1 3 Example1.T
    (VStruct [VInt 80]) true ["config.yaml"]
  = Ret (VStruct [VInt 80], configModTimes (service Example1.st1), false, []) None
  /\ forallb (fun e => negb (isCall e)) ([] : list event) = true.
Proof.
  refine (C6_watch_unchanged Fixture.yaml_Unmarshal Fixture.yaml_UnmarshalStrict
            Fixture.toml_Decode Fixture.json_Decode Full (service Example1.st1)
            Example1.os1 3 Example1.T (VStruct [VInt 80]) ["config.yaml"]
            ["config.yaml"] {[ "config.yaml" := 10%Z ]} [] _ _ _).
  - vm_compute. reflexivity.
  - vm_compute. reflexivity.
  - intros f tm H. apply lookup_singleton_Some in H as [<- <-].
    exists 10%Z. split; vm_compute; reflexivity.
Defined.

(** ** Probing the formats of a file without extension *)



(** ** The reload round *)

(** The caller's cell after a round: the scratch record when the
    pipeline returned no error and reported a change, and what it held
    before otherwise. *)
Lemma reloadCycle_publishes yaml yamlStrict toml json o fuel t config requested st st' e
    current scratch modTimes changed out err :
  heap st !! config = Some current ->
  load yaml yamlStrict toml json (service st) o fuel t current true requested
  = Ret (scratch, modTimes, changed, out) err ->
  reloadCycle yaml yamlStrict toml json o fuel t config requested st = Ret st' e ->
  heap st' !! config
  = Some (match err with
          | None => if changed then scratch else current
          | Some _ => current
          end).
Proof.
  intros Hcur Hload. unfold reloadCycle, reloadSeed. rewrite Hcur, Hload.
  assert (fresh (dom (heap st)) <> config) as Hfresh.
  { intros E. apply (is_fresh (dom (heap st))). rewrite E.
    apply elem_of_dom. now exists current. }
  destruct err as [e'|]; [|destruct changed]; intros [= <- _]; simpl.
  - now rewrite lookup_insert_ne.
  - now rewrite lookup_insert_eq.
  - now rewrite lookup_insert_ne.
Qed.

(** C3: on the running example the first load turns the caller's record
    from [Port = 0] into [Port = 80]; the next reload round is seeded with
    the record as it is then ([Port = 80]), not with the record as it was
    before the first load; with the port gone from the rewritten file the
    round publishes [Port = 80], where a round seeded with the original
    record would have produced [Port = 0]. *)
Theorem C3_reload_seeded_with_current_record :
  Example1.load1 = Ret Example1.st1 None
  /\ reloadSeed 0 Example1.st0 = Some (VStruct [VInt 0])
  /\ reloadSeed 0 Example1.st1 = Some (VStruct [VInt 80])
  /\ (exists st2,
        Example1.cycle Example1.os2 Example1.st1 = Ret st2 None
        /\ heap st2 !! 0 = Some (VStruct [VInt 80])
        /\ trace st2 = trace Example1.st1
                       ++ [CallProcessFile "config.yaml"; CallBinder Full [];
                           CallAutoReloadCallback (VStruct [VInt 80])])
  /\ (exists modTimes out,
        load Fixture.yaml_Unmarshal Fixture.yaml_UnmarshalStrict Fixture.toml_Decode
          Fixture.json_Decode (service Example1.st1) Example1.os2 3 Example1.T
          Example1.original true ["config.yaml"]
        = Ret (VStruct [VInt 0], modTimes, true, out) None).
Proof.
  split; [vm_compute; reflexivity|].
  split; [vm_compute; reflexivity|].
  split; [vm_compute; reflexivity|].
  split.
  - eexists. vm_compute. repeat split.
  - do 2 eexists. vm_compute. reflexivity.
Qed.


(** * Further properties of the binder *)

(** ** One field inside a record *)





(** ** File value, default, environment: who wins *)

(** X1: at a scalar field that the files left non-blank and that no
    candidate variable addresses, the binder changes nothing and raises
    nothing, whatever default annotation or required tag the field
    carries: the outcome of the pass is that of the fields after it, with
    the field's value as the files left it. *)
Theorem file_value_kept yaml Getenv b fuel prefixes front fs t fields
    vfront v vals vfront' :
  Exported fs = true ->
  length vfront = length front ->
  firstSet Getenv (envNames prefixes fs) = None ->
  scalar v = true ->
  DeepEqual v (Zero t) = false ->
  bindTags yaml Getenv b (S fuel) (TStruct front) (VStruct vfront) prefixes
  = Ret (VStruct vfront') None ->
  bindTags yaml Getenv b (S fuel) (TStruct (front ++ (fs, t) :: fields))
    (VStruct (vfront ++ v :: vals)) prefixes
  = mapRet (withFront (vfront' ++ [v]))
      (bindTags yaml Getenv b (S fuel) (TStruct fields) (VStruct vals) prefixes).
Proof.
  intros Hexp Hlen Hset Hsc Hnz Hfront.
  apply (bindTags_field_next _ _ _ _ _ _ _ _ _ _ _ _ _ _ Hexp Hlen Hfront).
  unfold bindField. rewrite loadFromEnv_firstSet, Hset. simpl.
  unfold applyDefault. rewrite Hnz. simpl. now apply bindNested_scalar.
Qed.

Lemma file_value_kept_witness :
  let port := Fixture.field "Port" [("default", "8080"); ("required", "true")] in
  bindTags Fixture.scalar (Fixture.env [("OTHER", "1")]) Full 3 (TStruct [(port, TInt)])
    (VStruct [VInt 80]) ["APP"]
  = Ret (VStruct [VInt 80]) None.
Proof.
  intros port.
  exact (file_value_kept Fixture.scalar (Fixture.env [("OTHER", "1")]) Full 2 ["APP"]
           [] port TInt [] [] (VInt 80) [] []
           eq_refl eq_refl eq_refl eq_refl eq_refl eq_refl).
Defined.





(** ** What the descent does at pointers and sequences *)

(** X4: the binder does not look behind a nil pointer: at an exported
    pointer field that is nil, with no variable set, no default and no
    required tag of its own, it leaves the pointer nil and raises nothing,
    whatever defaults or required tags the fields of the pointed-to type
    carry: the outcome of the pass is that of the fields after it. *)
Theorem nil_pointer_not_descended yaml Getenv b fuel prefixes front fs t fields
    vfront vals vfront' :
  Exported fs = true ->
  length vfront = length front ->
  firstSet Getenv (envNames prefixes fs) = None ->
  Get (Tag fs) "default" = "" ->
  String.eqb (Get (Tag fs) "required") "true" = false ->
  bindTags yaml Getenv b (S fuel) (TStruct front) (VStruct vfront) prefixes
  = Ret (VStruct vfront') None ->
  bindTags yaml Getenv b (S fuel) (TStruct (front ++ (fs, TPtr t) :: fields))
    (VStruct (vfront ++ VPtr None :: vals)) prefixes
  = mapRet (withFront (vfront' ++ [VPtr None]))
      (bindTags yaml Getenv b (S fuel) (TStruct fields) (VStruct vals) prefixes).
Proof.
  intros Hexp Hlen Hset Hd Hreq Hfront.
  apply (bindTags_field_next _ _ _ _ _ _ _ _ _ _ _ _ _ _ Hexp Hlen Hfront).
  unfold bindField. rewrite loadFromEnv_firstSet, Hset. cbn [andThen].
  rewrite (applyDefault_required yaml b fs (TPtr t) (VPtr None) Hd eq_refl), Hreq.
  now destruct b.
Qed.

Lemma nil_pointer_not_descended_witness :
  let db := Fixture.field "DB" [] in
  let inner := TStruct [(Fixture.field "Host" [("default", "localhost")], TString);
                        (Fixture.field "Password" [("required", "true")], TString)] in
  processTags Fixture.scalar (Fixture.env [("APP_DB_HOST", "h")]) 3
    (TStruct [(db, TPtr inner)]) (VStruct [VPtr None]) ["APP"]
  = Ret (VStruct [VPtr None]) None.
Proof.
  intros db inner.
  exact (nil_pointer_not_descended Fixture.scalar (Fixture.env [("APP_DB_HOST", "h")])
           Full 2 ["APP"] [] db inner [] [] [] []
           eq_refl eq_refl eq_refl eq_refl eq_refl eq_refl).
Defined.





(** ** A growth loop that has no end *)





(** ** [processInitTags] against [processTags] *)

Lemma noRequired_mapRet_inv {A B} (f : A -> B) (r : result A) :
  noRequired (mapRet f r) -> noRequired r.
Proof. now destruct r. Qed.

Lemma applyDefault_init_agrees yaml fs t field :
  noRequired (applyDefault yaml Full fs t field) ->
  applyDefault yaml InitOnly fs t field = applyDefault yaml Full fs t field.
Proof.
  unfold applyDefault. destruct (DeepEqual field (Zero t)); [|reflexivity].
  destruct (negb _); [reflexivity|].
  destruct (String.eqb _ "true"); [intros []|reflexivity].
Qed.

Section InitAgrees.

Variable yaml : string -> type -> value -> value * option yaml_error.
Variable Getenv : string -> string.
Variables recFull recInit : type -> value -> list string -> result value.
Variable rounds : nat.
Hypothesis Hrec :
  forall t v p, noRequired (recFull t v p) -> recInit t v p = recFull t v p.

Lemma bindElems_init_agrees path t i elems :
  noRequired (bindElems recFull path t i elems) ->
  bindElems recInit path t i elems = bindElems recFull path t i elems.
Proof.
  revert i. induction elems as [|e elems IH]; intros i; simpl; [reflexivity|].
  destruct (KindOf (Indirect e));
    try (intros H; apply noRequired_mapRet_inv in H; now rewrite (IH _ H)).
  pose proof (Hrec t e (path ++ [Str.Sprint i])) as Hr.
  destruct (recFull t e _) as [e' [err|]| |]; intros H.
  - rewrite (Hr H). reflexivity.
  - rewrite (Hr I). apply noRequired_mapRet_inv in H. now rewrite (IH _ H).
  - now rewrite (Hr I).
  - now rewrite (Hr I).
Qed.

Lemma growSlice_init_agrees k path t :
  forall idx field,
    noRequired (growSlice recFull k path t idx field) ->
    growSlice recInit k path t idx field = growSlice recFull k path t idx field.
Proof.
  induction k as [|k IH]; intros idx field; simpl; [reflexivity|].
  pose proof (Hrec t (Zero t) (path ++ [Str.Sprint idx])) as Hr.
  destruct (recFull t (Zero t) _) as [x [err|]| |]; intros H.
  - destruct err; try (rewrite (Hr I); reflexivity). destruct H.
  - rewrite (Hr I). destruct (DeepEqual x (Zero t)); [reflexivity|now apply IH].
  - now rewrite (Hr I).
  - now rewrite (Hr I).
Qed.

Lemma bindSlice_init_agrees prefixes fs t elems :
  noRequired (bindSlice recFull rounds prefixes fs t elems) ->
  bindSlice recInit rounds prefixes fs t elems = bindSlice recFull rounds prefixes fs t elems.
Proof.
  unfold bindSlice. destruct (0 <? Len elems)%nat.
  - intros H. apply noRequired_mapRet_inv in H. now rewrite bindElems_init_agrees.
  - destruct (KindOf _); try reflexivity. apply growSlice_init_agrees.
Qed.

Lemma bindNested_init_agrees prefixes fs t field :
  noRequired (bindNested recFull rounds prefixes fs t field) ->
  bindNested recInit rounds prefixes fs t field
  = bindNested recFull rounds prefixes fs t field.
Proof.
  revert t.
  induction field as [x|x|x|l _| |l _| |v IH] using value_nested_ind; intros t; simpl;
    try reflexivity.
  - apply Hrec.
  - intros H. apply noRequired_mapRet_inv in H. now rewrite bindSlice_init_agrees.
  - intros H. apply noRequired_mapRet_inv in H. now rewrite bindSlice_init_agrees.
  - intros H. apply noRequired_mapRet_inv in H. now rewrite IH.
Qed.

Lemma bindField_init_agrees prefixes fs t field :
  noRequired (bindField yaml Getenv recFull rounds Full prefixes fs t field) ->
  bindField yaml Getenv recInit rounds InitOnly prefixes fs t field
  = bindField yaml Getenv recFull rounds Full prefixes fs t field.
Proof.
  unfold bindField.
  destruct (loadFromEnv yaml Getenv (envNames prefixes fs) t field) as [v1 [e1|]| |];
    simpl; try reflexivity.
  pose proof (applyDefault_init_agrees yaml fs t v1) as Hd.
  destruct (applyDefault yaml Full fs t v1) as [v2 [e2|]| |]; simpl; intros H.
  - now rewrite (Hd H).
  - rewrite (Hd I). simpl. now apply bindNested_init_agrees.
  - now rewrite (Hd I).
  - now rewrite (Hd I).
Qed.

Lemma bindFields_init_agrees prefixes fields vals :
  noRequired (bindFields yaml Getenv recFull rounds Full prefixes fields vals) ->
  bindFields yaml Getenv recInit rounds InitOnly prefixes fields vals
  = bindFields yaml Getenv recFull rounds Full prefixes fields vals.
Proof.
  revert vals. induction fields as [|[fs t] fields IH]; intros [|v vals]; simpl;
    try reflexivity.
  destruct (negb (Exported fs)).
  - intros H. apply noRequired_mapRet_inv in H. now rewrite (IH _ H).
  - pose proof (bindField_init_agrees prefixes fs t v) as Hf.
    destruct (bindField yaml Getenv recFull rounds Full prefixes fs t v)
      as [v' [e|]| |]; intros H.
    + now rewrite (Hf H).
    + rewrite (Hf I). apply noRequired_mapRet_inv in H. now rewrite (IH _ H).
    + now rewrite (Hf I).
    + now rewrite (Hf I).
Qed.

End InitAgrees.

Lemma bindTags_init_agrees yaml Getenv fuel :
  forall t config prefixes,
    noRequired (bindTags yaml Getenv Full fuel t config prefixes) ->
    bindTags yaml Getenv InitOnly fuel t config prefixes
    = bindTags yaml Getenv Full fuel t config prefixes.
Proof.
  induction fuel as [|n IH]; intros t config prefixes; [reflexivity|].
  simpl. destruct config; simpl; try reflexivity.
  intros H. apply noRequired_mapRet_inv in H.
  now rewrite (bindFields_init_agrees yaml Getenv _ _ n IH).
Qed.

(** X8: [processInitTags] differs from [processTags] only where
    [processTags] reports a required field: whenever [processTags] ends in
    anything else (success, a decoder's error, an invalid record),
    [processInitTags] ends in exactly the same way, with the same record. *)
Theorem init_agrees_with_load yaml Getenv fuel t config prefixes :
  noRequired (processTags yaml Getenv fuel t config prefixes) ->
  processInitTags yaml Getenv fuel t config prefixes
  = processTags yaml Getenv fuel t config prefixes.
Proof.
  unfold processTags, processInitTags. intros H.
  destruct (bindTags yaml Getenv Full fuel t config prefixes) as [r [e|]| |] eqn:E;
    rewrite <- E; apply bindTags_init_agrees; now rewrite E.
Qed.

Lemma init_agrees_with_load_witness :
  let T := TStruct [(Fixture.field "Host" [("default", "localhost"); ("required", "true")],
                     TString);
                    (Fixture.field "Port" [("required", "true")], TInt)] in
  let getenv := Fixture.env [("APP_PORT", "8080")] in
  processInitTags Fixture.scalar getenv 3 T (VStruct [VString ""; VInt 0]) ["APP"]
  = Ret (VStruct [VString "localhost"; VInt 8080]) None.
Proof.
  intros T getenv.
  refine (eq_trans
            (init_agrees_with_load Fixture.scalar getenv 3 T
               (VStruct [VString ""; VInt 0]) ["APP"] _) _).
  - vm_compute. exact I.
  - reflexivity.
Defined.


(** * Further properties of the pipeline *)

(** ** The resolver *)

Lemma timesOf_unique o keys m1 m2 : timesOf o keys m1 -> timesOf o keys m2 -> m1 = m2.
Proof. intros H1 H2. apply map_eq. intros path. now rewrite (H1 path), (H2 path). Qed.

Lemma resolver_run c o watchMode requested :
  exists results,
    getConfigurationFiles c o watchMode requested
    = (flat_map (candidateSources c o) (rev requested), results,
       (if negb watchMode && (Debug c || Verbose c)
        then [PrintCurrentEnvironment (GetEnvironment c o)] else [])
       ++ flat_map (candidateDiagnostics c o watchMode) (rev requested))
    /\ timesOf o (flat_map (candidateSources c o) (rev requested)) results.
Proof.
  unfold getConfigurationFiles.
  destruct (resolve_fold c o watchMode (rev requested) [] ∅
              (if negb watchMode && (Debug c || Verbose c)
               then [PrintCurrentEnvironment (GetEnvironment c o)] else [])
              (timesOf_nil o))
    as [results [-> Inv]].
  exists results. now split.
Qed.

(** X9: watch mode changes what the resolver prints, not what it
    resolves: the file list and the map of modification times are the same
    in a reload round as in a plain load on the same file system. *)
Theorem resolver_watch_same_sources c o requested :
  (getConfigurationFiles c o true requested).1
  = (getConfigurationFiles c o false requested).1.
Proof.
  destruct (resolver_run c o true requested) as [m1 [-> H1]].
  destruct (resolver_run c o false requested) as [m2 [-> H2]].
  simpl. now rewrite (timesOf_unique _ _ _ _ H1 H2).
Qed.

Lemma candidateSources_regular c o file path :
  path ∈ candidateSources c o file -> regular o path = true.
Proof.
  unfold candidateSources.
  destruct (regular o file) eqn:R1;
    destruct (regular o (envFileName file (GetEnvironment c o))) eqn:R2;
    destruct (regular o (envFileName file "example")) eqn:R3; simpl;
    rewrite ?elem_of_cons, ?elem_of_nil; intuition (subst; assumption).
Qed.

(** X10: every path the resolver returns names a regular file, and the
    map of modification times has an entry, the file's own modification
    time, for exactly the returned paths. *)
Theorem resolved_files_exist c o watchMode requested path :
  let r := getConfigurationFiles c o watchMode requested in
  (path ∈ r.1.1 -> regular o path = true /\ r.1.2 !! path = modTimeOf o path)
  /\ (path ∉ r.1.1 -> r.1.2 !! path = None)
  /\ (is_Some (r.1.2 !! path) <-> path ∈ r.1.1).
Proof.
  destruct (resolver_run c o watchMode requested) as [m [-> Inv]]. simpl.
  assert (path ∈ flat_map (candidateSources c o) (rev requested) -> regular o path = true)
    as Hreg.
  { intros Hin. apply list_elem_of_In, in_flat_map in Hin as [file [_ Hin]].
    apply list_elem_of_In in Hin. now apply (candidateSources_regular c o file). }
  pose proof (Inv path) as Hp.
  destruct (decide (path ∈ flat_map (candidateSources c o) (rev requested))) as [Hin|Hout].
  - split; [|split].
    + intros _. split; [now apply Hreg|exact Hp].
    + intros Hn. contradiction.
    + split; [intros _; exact Hin|intros _].
      rewrite Hp. pose proof (Hreg Hin) as R. unfold regular, modTimeOf in *.
      destruct (os_Stat o path) as [fi|]; [|discriminate]. rewrite R. now eexists.
  - split; [|split].
    + intros Hin. contradiction.
    + intros _. exact Hp.
    + rewrite Hp. split; [intros [x Hx]; discriminate|intros Hin; contradiction].
Qed.

(** ** Decoding the files in order *)

Lemma processFiles_front yaml yamlStrict toml json c o t front rest config out config1 out1 :
  processFiles yaml yamlStrict toml json c o t config front out = (config1, out1, None) ->
  processFiles yaml yamlStrict toml json c o t config (front ++ rest) out
  = processFiles yaml yamlStrict toml json c o t config1 rest out1.
Proof.
  revert config out. induction front as [|file front IH]; intros config out; simpl.
  - now intros [= <- <-].
  - destruct (processFile _ _ _ _ _ _ _ _ _) as [config' [e|]]; [discriminate|apply IH].
Qed.

(** X11: decoding a list of files is decoding its first part and then
    the rest on the record the first part left; when a file of the first
    part fails, nothing of the rest is read. *)
Theorem processFiles_app yaml yamlStrict toml json c o t front rest :
  forall config out,
    processFiles yaml yamlStrict toml json c o t config (front ++ rest) out
    = match processFiles yaml yamlStrict toml json c o t config front out with
      | (config1, out1, None) =>
          processFiles yaml yamlStrict toml json c o t config1 rest out1
      | failed => failed
      end.
Proof.
  induction front as [|file front IH]; intros config out; simpl; [reflexivity|].
  destruct (processFile _ _ _ _ _ _ _ _ _) as [config' [e|]]; [reflexivity|apply IH].
Qed.

(** X12: outside watch mode, when a resolved file fails to decode after
    the files before it decoded, [load] and [init] return that error with
    [changed] set; the binder is not called, the files after it are not
    read and the recorded modification times stay as they were. *)
Theorem decode_failure_aborts_load yaml yamlStrict toml json b s o fuel t config requested
    front file rest times out config1 out1 config2 err :
  getConfigurationFiles (config_of s) o false requested
  = (front ++ file :: rest, times, out) ->
  processFiles yaml yamlStrict toml json (config_of s) o t config front out
  = (config1, out1, None) ->
  processFile yaml yamlStrict toml json o t config1 file
    (ErrorOnUnmatchedKeys (config_of s)) = (config2, Some err) ->
  loadWith yaml yamlStrict toml json b s o fuel t config false requested
  = Ret (config2, configModTimes s, true,
         out1
         ++ (if Debug (config_of s) || Verbose (config_of s)
             then [PrintLoadingFile file] else [])
         ++ [CallProcessFile file]
         ++ deferredPrint (config_of s) requested config2 (Some err))
      (Some err).
Proof.
  intros Hres Hfront Hfile. unfold loadWith. rewrite Hres. simpl.
  rewrite (processFiles_front _ _ _ _ _ _ _ _ _ _ _ _ _ Hfront). simpl. rewrite Hfile.
  now rewrite <- !app_assoc.
Qed.

Lemma decode_failure_aborts_load_witness :
  let c := {| Environment := "production"; ENVPrefix := "-"; Debug := false;
              Verbose := false; Silent := true; AutoReload := false;
              AutoReloadInterval := 0; AutoReloadCallback := false;
              ErrorOnUnmatchedKeys := true |} in
  let o := {| environ := ∅;
              files := {[ "a.yaml" := {| IsRegular := true; ModTime := 1;
                                           Data := Some "port: 80" |};
                          "b.yaml" := {| IsRegular := true; ModTime := 2;
                                           Data := Some "host: x" |} ]};
              Args0 := "svc" |} in
  load Fixture.yaml_Unmarshal Fixture.yaml_UnmarshalStrict Fixture.toml_Decode
    Fixture.json_Decode {| config_of := c; configModTimes := ∅ |} o 3 Example1.T
    (VStruct [VInt 0]) false ["b.yaml"; "a.yaml"]
  = Ret (VStruct [VInt 80], ∅, true, [CallProcessFile "a.yaml"; CallProcessFile "b.yaml"])
      (Some (ErrYaml (YamlTypeError [FieldNotFound "host"]))).
Proof.
  intros c o.
  refine (decode_failure_aborts_load Fixture.yaml_Unmarshal Fixture.yaml_UnmarshalStrict
            Fixture.toml_Decode Fixture.json_Decode Full
            {| config_of := c; configModTimes := ∅ |} o 3 Example1.T (VStruct [VInt 0])
            ["b.yaml"; "a.yaml"] ["a.yaml"] "b.yaml" []
            {[ "a.yaml" := 1%Z; "b.yaml" := 2%Z ]} [] (VStruct [VInt 80])
            [CallProcessFile "a.yaml"] (VStruct [VInt 80])
            (ErrYaml (YamlTypeError [FieldNotFound "host"])) _ _ _);
    vm_compute; reflexivity.
Defined.

(** ** When a pipeline run reports "unchanged" *)

Lemma sourcesChanged_false_inv times recorded :
  sourcesChanged times recorded = false ->
  forall f tm, times !! f = Some tm ->
               exists v, recorded !! f = Some v /\ After tm v = false.
Proof.
  unfold sourcesChanged. intros H f tm Hf.
  assert (In (f, tm) (map_to_list times)) as Hin
      by now apply list_elem_of_In, elem_of_map_to_list.
  destruct (recorded !! f) as [v|] eqn:Hv.
  - exists v. split; [reflexivity|].
    destruct (After tm v) eqn:Ha; [|reflexivity].
    rewrite <- H. symmetry. apply existsb_exists. exists (f, tm). split; [exact Hin|].
    simpl. now rewrite Hv.
  - exfalso. rewrite <- Bool.not_true_iff_false in H. apply H.
    apply existsb_exists. exists (f, tm). split; [exact Hin|].
    simpl. now rewrite Hv.
Qed.

(** X13: [load] and [init] report [changed = false] only in watch mode,
    only when the resolved set has as many entries as the recorded one and
    every resolved file has a recorded time that its modification time is
    not after (a file without recorded time counts as changed); they then
    return no error and leave the record and the recorded times as they
    were. *)
Theorem unchanged_only_if yaml yamlStrict toml json b s o fuel t config watchMode
    requested config' modTimes printed err :
  loadWith yaml yamlStrict toml json b s o fuel t config watchMode requested
  = Ret (config', modTimes, false, printed) err ->
  watchMode = true
  /\ size (getConfigurationFiles (config_of s) o watchMode requested).1.2
     = size (configModTimes s)
  /\ (forall f tm,
        (getConfigurationFiles (config_of s) o watchMode requested).1.2 !! f = Some tm ->
        exists v, configModTimes s !! f = Some v /\ After tm v = false)
  /\ config' = config /\ modTimes = configModTimes s /\ err = None.
Proof.
  unfold loadWith.
  destruct (getConfigurationFiles (config_of s) o watchMode requested)
    as [[configFiles times] out]. simpl.
  destruct watchMode; simpl.
  - destruct (size times =? size (configModTimes s))%nat eqn:Hsize; simpl.
    + destruct (sourcesChanged times (configModTimes s)) eqn:Hch; simpl.
      * destruct (processFiles _ _ _ _ _ _ _ _ _ _) as [[c1 o1] [e|]]; [discriminate|].
        destruct (bindTags _ _ _ _ _ _ _); discriminate.
      * intros [= <- <- <- <-]. apply Nat.eqb_eq in Hsize.
        repeat split; try assumption. now apply sourcesChanged_false_inv.
    + destruct (processFiles _ _ _ _ _ _ _ _ _ _) as [[c1 o1] [e|]]; [discriminate|].
      destruct (bindTags _ _ _ _ _ _ _); discriminate.
  - destruct (processFiles _ _ _ _ _ _ _ _ _ _) as [[c1 o1] [e|]]; [discriminate|].
    destruct (bindTags _ _ _ _ _ _ _); discriminate.
Qed.

Lemma unchanged_only_if_witness :
  size (getConfigurationFiles (config_of (service Example1.st1)) Example1.os1 true
          ["config.yaml"]).1.2
  = size (configModTimes (service Example1.st1)).
Proof.
  refine (proj1 (proj2
    (unchanged_only_if Fixture.yaml_Unmarshal Fixture.yaml_UnmarshalStrict
       Fixture.toml_Decode Fixture.json_Decode Full (service Example1.st1) Example1.os1 3
       Example1.T (VStruct [VInt 80]) true ["config.yaml"] (VStruct [VInt 80])
       (configModTimes (service Example1.st1)) [] None _))).
  vm_compute. reflexivity.
Defined.

Lemma sourcesChanged_same times : sourcesChanged times times = false.
Proof.
  apply sourcesChanged_false. intros f tm H. exists tm. split; [exact H|].
  unfold After. apply Z.ltb_irrefl.
Qed.

(** A watch round on the file system whose times are the recorded ones *)
Lemma loadWith_untouched yaml yamlStrict toml json b s o fuel t config requested :
  configModTimes s = (getConfigurationFiles (config_of s) o false requested).1.2 ->
  loadWith yaml yamlStrict toml json b s o fuel t config true requested
  = Ret (config, configModTimes s, false,
         (getConfigurationFiles (config_of s) o true requested).2
         ++ deferredPrint (config_of s) requested config None) None.
Proof.
  intros Hrec. unfold loadWith.
  destruct (resolver_run (config_of s) o true requested) as [m1 [E1 H1]].
  destruct (resolver_run (config_of s) o false requested) as [m2 [E2 H2]].
  rewrite E2 in Hrec. rewrite E1. simpl in *.
  rewrite Hrec, (timesOf_unique _ _ _ _ H1 H2).
  now rewrite Nat.eqb_refl, sourcesChanged_same.
Qed.

(** X14: once every resolved file has decoded, whatever the binder then
    returns (success or an error such as a required field), [Load] has
    recorded the modification times, and a reload round on the untouched
    file system reports "unchanged": it returns nothing to publish, calls
    neither the decoders, the binder nor the callback, and leaves the
    caller's record as [Load] left it. *)
Theorem reload_after_load_is_noop yaml yamlStrict toml json o fuel fuel' t l requested st
    v configFiles times out v1 out1 v2 err :
  heap st !! l = Some v ->
  getConfigurationFiles (config_of (service st)) o false requested
  = (configFiles, times, out) ->
  processFiles yaml yamlStrict toml json (config_of (service st)) o t v configFiles out
  = (v1, out1, None) ->
  bindTags yaml (os_Getenv o) Full fuel t v1
    (if String.eqb (getENVPrefix (config_of (service st)) o) "-"
     then [] else [getENVPrefix (config_of (service st)) o])
  = Ret v2 err ->
  exists st1 st2 printed,
    Load yaml yamlStrict toml json o fuel t (PtrTo l) requested st = Ret st1 err
    /\ heap st1 !! l = Some v2
    /\ reloadCycle yaml yamlStrict toml json o fuel' t l requested st1 = Ret st2 None
    /\ heap st2 !! l = Some v2
    /\ configModTimes (service st2) = times
    /\ trace st2 = trace st1 ++ printed
    /\ forallb (fun e => negb (isCall e)) printed = true.
Proof.
  intros Hv Hres Hfiles Hbind.
  unfold Load, callWith. rewrite Hv. unfold loadWith. rewrite Hres. simpl.
  rewrite Hfiles, Hbind.
  eexists. eexists. eexists. split; [reflexivity|]. simpl.
  split; [now rewrite lookup_insert_eq|].
  unfold reloadCycle, reloadSeed. simpl. rewrite lookup_insert_eq.
  unfold load.
  rewrite (loadWith_untouched yaml yamlStrict toml json Full
             (withModTimes (service st) times) o fuel' t v2 requested)
    by (simpl; now rewrite Hres).
  simpl. split; [reflexivity|]. simpl.
  split; [|split; [reflexivity|split; [reflexivity|]]].
  - rewrite lookup_insert_ne; [now rewrite lookup_insert_eq|].
    intros E. apply (is_fresh (dom (<[l := v2]> (heap st)))). rewrite E.
    apply elem_of_dom. rewrite lookup_insert_eq. now eexists.
  - rewrite forallb_app, deferredPrint_prints, andb_true_r. apply resolver_prints.
Qed.

Lemma reload_after_load_is_noop_witness :
  exists st1 st2 printed,
    Example1.load1 = Ret st1 None
    /\ heap st1 !! 0 = Some (VStruct [VInt 80])
    /\ Example1.cycle Example1.os1 st1 = Ret st2 None
    /\ heap st2 !! 0 = Some (VStruct [VInt 80])
    /\ configModTimes (service st2) = {[ "config.yaml" := 10%Z ]}
    /\ trace st2 = trace st1 ++ printed
    /\ forallb (fun e => negb (isCall e)) printed = true.
Proof.
  refine (reload_after_load_is_noop Fixture.yaml_Unmarshal Fixture.yaml_UnmarshalStrict
            Fixture.toml_Decode Fixture.json_Decode Example1.os1 3 3 Example1.T 0
            ["config.yaml"] Example1.st0 (VStruct [VInt 0]) ["config.yaml"]
            {[ "config.yaml" := 10%Z ]} [] (VStruct [VInt 80])
            [CallProcessFile "config.yaml"] (VStruct [VInt 80]) None _ _ _ _);
    vm_compute; reflexivity.
Defined.

(** ** What a reload round leaves *)

(** X15: for a caller's record that holds no pointer that is not nil
    and no element in any sequence (what the scratch copy would share with
    it), a reload round never returns an error.  It publishes the scratch
    record into the caller's cell exactly when the pipeline returned no
    error and reported a change, and calls the callback (if one is set)
    exactly then; an error is printed and the caller's record is left
    alone; no other cell the caller had is written. *)
Theorem reload_round_outcome yaml yamlStrict toml json o fuel t config requested st
    current scratch modTimes changed out err :
  heap st !! config = Some current ->
  unshared current = true ->
  load yaml yamlStrict toml json (service st) o fuel t current true requested
  = Ret (scratch, modTimes, changed, out) err ->
  exists st',
    reloadCycle yaml yamlStrict toml json o fuel t config requested st = Ret st' None
    /\ heap st' !! config
       = Some (match err with
               | None => if changed then scratch else current
               | Some _ => current
               end)
    /\ (forall l, l <> config -> is_Some (heap st !! l) -> heap st' !! l = heap st !! l)
    /\ configModTimes (service st') = modTimes
    /\ trace st'
       = trace st ++ out
         ++ match err with
            | Some e => [PrintFailedToReload requested e]
            | None =>
                if changed && AutoReloadCallback (config_of (service st))
                then [CallAutoReloadCallback scratch] else []
            end.
Proof.
  intros Hcur _ Hload. unfold reloadCycle, reloadSeed. rewrite Hcur, Hload.
  assert (forall l, is_Some (heap st !! l) -> fresh (dom (heap st)) <> l) as Hfresh.
  { intros l Hl E. apply (is_fresh (dom (heap st))). rewrite E. now apply elem_of_dom. }
  assert (fresh (dom (heap st)) <> config) as Hc
      by (apply Hfresh; rewrite Hcur; now eexists).
  destruct err as [e|]; [|destruct changed]; eexists; (split; [reflexivity|]); simpl.
  - split; [now rewrite lookup_insert_ne|]. split; [|now split].
    intros l _ Hl. rewrite lookup_insert_ne; [reflexivity|now apply Hfresh].
  - split; [now rewrite lookup_insert_eq|]. split; [|split; [reflexivity|]].
    + intros l Hne Hl. rewrite lookup_insert_ne by congruence.
      rewrite lookup_insert_ne; [reflexivity|now apply Hfresh].
    + now destruct (AutoReloadCallback (config_of (service st))).
  - split; [now rewrite lookup_insert_ne|]. split; [|split; [reflexivity|]].
    + intros l _ Hl. rewrite lookup_insert_ne; [reflexivity|now apply Hfresh].
    + now rewrite app_nil_r.
Qed.

Lemma reload_round_outcome_witness :
  exists st',
    Example1.cycle Example1.os2 Example1.st1 = Ret st' None
    /\ heap st' !! 0 = Some (VStruct [VInt 80])
    /\ (forall l, l <> 0 -> is_Some (heap Example1.st1 !! l) ->
                  heap st' !! l = heap Example1.st1 !! l)
    /\ configModTimes (service st') = {[ "config.yaml" := 20%Z ]}
    /\ trace st'
       = trace Example1.st1 ++ [CallProcessFile "config.yaml"; CallBinder Full []]
         ++ [CallAutoReloadCallback (VStruct [VInt 80])].
Proof.
  refine (reload_round_outcome Fixture.yaml_Unmarshal Fixture.yaml_UnmarshalStrict
            Fixture.toml_Decode Fixture.json_Decode Example1.os2 3 Example1.T 0
            ["config.yaml"] Example1.st1 (VStruct [VInt 80]) (VStruct [VInt 80])
            {[ "config.yaml" := 20%Z ]} true
            [CallProcessFile "config.yaml"; CallBinder Full []] None _ _ _);
    vm_compute; reflexivity.
Defined.

(** ** Strict and lenient decoding of TOML *)

(** X16: a readable file that the dispatch hands to the TOML decoder
    first (a [.toml] file, or a file without recognized extension) and that
    decodes with keys left over: in strict mode [processFile] returns the
    unmatched-keys error carrying exactly those keys; in lenient mode it
    returns no error; the record is, in both, the one the decoder left. *)
Theorem toml_unmatched_keys yaml yamlStrict toml json o t config file data config' keys :
  ReadFile o file = Some data ->
  Str.HasSuffix file ".yaml" = false ->
  Str.HasSuffix file ".yml" = false ->
  Str.HasSuffix file ".toml" = true \/ Str.HasSuffix file ".json" = false ->
  toml data t config = (config', keys, None) ->
  keys <> [] ->
  processFile yaml yamlStrict toml json o t config file true
  = (config', Some (ErrUnmatchedTomlKeys keys))
  /\ processFile yaml yamlStrict toml json o t config file false = (config', None).
Proof.
  intros Hread Hy1 Hy2 Hsuffix Hdec Hkeys.
  assert (unmarshalToml toml data t config true
          = (config', Some (ErrUnmatchedTomlKeys keys))) as Hstrict.
  { unfold unmarshalToml. rewrite Hdec. destruct keys; [contradiction|reflexivity]. }
  assert (unmarshalToml toml data t config false = (config', None)) as Hlenient.
  { unfold unmarshalToml. rewrite Hdec. now rewrite andb_false_r. }
  unfold processFile. rewrite Hread, Hy1, Hy2. simpl.
  destruct (Str.HasSuffix file ".toml") eqn:Ht.
  - now rewrite Hstrict, Hlenient.
  - destruct Hsuffix as [Hs|Hs]; [discriminate|]. rewrite Hs.
    unfold probeFormats. now rewrite Hstrict, Hlenient.
Qed.

Lemma toml_unmatched_keys_witness :
  let o := {| environ := ∅;
              files := {[ "app.toml" := {| IsRegular := true; ModTime := 1;
                                             Data := Some "extra = 1" |} ]};
              Args0 := "svc" |} in
  let toml := fun (data : string) (t : type) (config : value) =>
                (config, ["extra"], @None string) in
  processFile Fixture.yaml_Unmarshal Fixture.yaml_UnmarshalStrict toml
    Fixture.json_Decode o Example1.T (VStruct [VInt 0]) "app.toml" true
  = (VStruct [VInt 0], Some (ErrUnmatchedTomlKeys ["extra"]))
  /\ processFile Fixture.yaml_Unmarshal Fixture.yaml_UnmarshalStrict toml
       Fixture.json_Decode o Example1.T (VStruct [VInt 0]) "app.toml" false
     = (VStruct [VInt 0], None).
Proof.
  intros o toml.
  refine (toml_unmatched_keys Fixture.yaml_Unmarshal Fixture.yaml_UnmarshalStrict toml
            Fixture.json_Decode o Example1.T (VStruct [VInt 0]) "app.toml" "extra = 1"
            (VStruct [VInt 0]) ["extra"] _ eq_refl eq_refl _ eq_refl _).
  - vm_compute. reflexivity.
  - left. reflexivity.
  - discriminate.
Defined.

(** X17: in lenient mode [processFile] never returns the unmatched-keys
    error, whatever the file and whatever the decoders do. *)
Theorem lenient_never_unmatched yaml yamlStrict toml json o t config file config' keys :
  processFile yaml yamlStrict toml json o t config file false
  <> (config', Some (ErrUnmatchedTomlKeys keys)).
Proof.
  assert (forall data c k, snd (unmarshalToml toml data t c false)
                           <> Some (ErrUnmatchedTomlKeys k)) as Htoml.
  { intros data c k. unfold unmarshalToml.
    destruct (toml data t c) as [[c1 u] [m|]]; simpl; [discriminate|].
    rewrite andb_false_r. discriminate. }
  assert (forall data c, snd (unmarshalJSON json data t c false)
                         <> Some (ErrUnmatchedTomlKeys keys)) as Hjson.
  { intros data c. unfold unmarshalJSON.
    destruct (json false data t c) as [c1 [[|m]|]]; discriminate. }
  unfold processFile. destruct (ReadFile o file) as [data|]; [|discriminate].
  destruct (_ || _).
  - destruct (unmarshalYaml _ _ _ _ _ _) as [c [e|]]; discriminate.
  - destruct (Str.HasSuffix file ".toml").
    + intros E. apply (Htoml data config keys). now rewrite E.
    + destruct (Str.HasSuffix file ".json").
      * intros E. apply (Hjson data config). now rewrite E.
      * unfold probeFormats.
        pose proof (Htoml data config) as H1.
        destruct (unmarshalToml toml data t config false) as [c1 [e1|]]; [|discriminate].
        destruct e1 as [|f1|y1|k1|m1|m1| |f1|];
          try (destruct (unmarshalJSON json data t c1 false) as [c2 [e2|]];
               [|discriminate];
               destruct e2; simpl; try destruct (Str.Contains _ _); try discriminate;
               destruct (yaml data t c2) as [c3 [[?|?]|]]; discriminate).
        exfalso. now apply (H1 k1).
Qed.

(** ** File names of the environment and example variants *)

(** X18: the environment variant of a path is the path with a dot and
    the environment name put in front of its extension (at the end when
    there is none): it is one byte plus the environment name longer than
    the path, so it never is the path itself. *)
Theorem envFileName_shape file env :
  exists stem,
    file = stem +:+ Str.Ext file
    /\ envFileName file env = stem +:+ "." +:+ env +:+ Str.Ext file
    /\ String.length (envFileName file env)
       = String.length file + 1 + String.length env
    /\ envFileName file env <> file.
Proof.
  destruct (Ext_suffix file) as [stem Hstem]. exists stem.
  assert (envFileName file env = stem +:+ "." +:+ env +:+ Str.Ext file) as Hshape.
  { unfold envFileName. destruct (String.eqb (Str.Ext file) "") eqn:E.
    - apply String.eqb_eq in E. rewrite E in *.
      rewrite string_app_nil_r in Hstem. subst stem.
      now rewrite string_app_nil_r.
    - rewrite Hstem at 1. now rewrite TrimSuffix_app. }
  assert (String.length (envFileName file env)
          = String.length file + 1 + String.length env) as Hlen.
  { rewrite Hshape. rewrite Hstem at 2. rewrite !string_length_app. simpl. lia. }
  repeat split; try assumption.
  intros E. rewrite E in Hlen. lia.
Qed.

Lemma Ext_known stem ext :
  ext ∈ [".yaml"; ".yml"; ".toml"; ".json"] -> Str.Ext (stem +:+ ext) = ext.
Proof.
  intros Hin. unfold Str.Ext. rewrite list_ascii_of_string_app, rev_app_distr.
  repeat (apply elem_of_cons in Hin as [->|Hin]; [reflexivity|]).
  now apply elem_of_nil in Hin.
Qed.

(** X19: the environment and example variants of a file named with one
    of the extensions [processFile] recognizes carry the same extension,
    so they are decoded with the same format as the file itself. *)
Theorem variant_keeps_extension file env ext :
  ext ∈ [".yaml"; ".yml"; ".toml"; ".json"] ->
  Str.HasSuffix file ext = true ->
  Str.HasSuffix (envFileName file env) ext = true.
Proof.
  intros Hext Hsuffix. destruct (HasSuffix_split _ _ Hsuffix) as [stem ->].
  unfold envFileName. rewrite (Ext_known stem ext Hext).
  assert (String.eqb ext "" = false) as ->.
  { repeat (apply elem_of_cons in Hext as [->|Hext]; [reflexivity|]).
    now apply elem_of_nil in Hext. }
  rewrite TrimSuffix_app, <- !string_app_assoc. apply HasSuffix_app.
Qed.

Lemma variant_keeps_extension_witness :
  Str.HasSuffix (envFileName "conf.d/app.toml" "production") ".toml" = true
  /\ envFileName "conf.d/app.toml" "production" = "conf.d/app.production.toml".
Proof.
  split; [|reflexivity].
  refine (variant_keeps_extension "conf.d/app.toml" "production" ".toml" _ eq_refl).
  apply elem_of_cons. right. apply elem_of_cons. right. apply elem_of_cons. now left.
Defined.

(** ** Names that are never empty, and [New] *)

(** X20: [GetEnvironment] and [getENVPrefix] never return the empty
    string, and each follows one order of precedence: the configured value
    when it is not empty; else the value of its variable ([CONFIGOR_ENV],
    [CONFIGOR_ENV_PREFIX]) when that is not empty; else a fixed name:
    ["test"] when the program's name matches the test pattern and
    ["development"] when it does not, and ["ConfigService"] for the
    prefix. *)
Theorem names_never_empty c o :
  GetEnvironment c o <> ""
  /\ getENVPrefix c o <> ""
  /\ (Environment c <> "" -> GetEnvironment c o = Environment c)
  /\ (Environment c = "" -> os_Getenv o "CONFIGOR_ENV" <> "" ->
      GetEnvironment c o = os_Getenv o "CONFIGOR_ENV")
  /\ (Environment c = "" -> os_Getenv o "CONFIGOR_ENV" = "" ->
      GetEnvironment c o
      = if testRegexp_MatchString (Args0 o) then "test" else "development")
  /\ (ENVPrefix c <> "" -> getENVPrefix c o = ENVPrefix c)
  /\ (ENVPrefix c = "" -> os_Getenv o "CONFIGOR_ENV_PREFIX" <> "" ->
      getENVPrefix c o = os_Getenv o "CONFIGOR_ENV_PREFIX")
  /\ (ENVPrefix c = "" -> os_Getenv o "CONFIGOR_ENV_PREFIX" = "" ->
      getENVPrefix c o = "ConfigService").
Proof.
  unfold GetEnvironment, getENVPrefix.
  destruct (String.eqb (Environment c) "") eqn:E1;
    destruct (String.eqb (os_Getenv o "CONFIGOR_ENV") "") eqn:E2;
    destruct (testRegexp_MatchString (Args0 o));
    destruct (String.eqb (ENVPrefix c) "") eqn:E3;
    destruct (String.eqb (os_Getenv o "CONFIGOR_ENV_PREFIX") "") eqn:E4;
    simpl;
    rewrite ?String.eqb_neq, ?String.eqb_eq in *;
    repeat split; intros; try assumption; try discriminate; try reflexivity;
    try contradiction; congruence.
Qed.

Lemma names_never_empty_witness :
  let unnamed := {| Environment := ""; ENVPrefix := ""; Debug := false; Verbose := false;
                    Silent := false; AutoReload := false; AutoReloadInterval := 0;
                    AutoReloadCallback := false; ErrorOnUnmatchedKeys := false |} in
  let o := {| environ := {[ "CONFIGOR_ENV" := "staging" ]}; files := ∅;
              Args0 := "pkg.test" |} in
  GetEnvironment Example1.cfg o = "production"
  /\ GetEnvironment unnamed o = "staging"
  /\ GetEnvironment unnamed Example1.os1 = "development"
  /\ GetEnvironment unnamed (unsetenv o "CONFIGOR_ENV") = "test"
  /\ getENVPrefix unnamed o = "ConfigService".
Proof.
  intros unnamed o.
  split; [refine (proj1 (proj2 (proj2 (names_never_empty Example1.cfg o))) _);
          discriminate|].
  split; [refine (proj1 (proj2 (proj2 (proj2 (names_never_empty unnamed o))))
                    eq_refl _); discriminate|].
  split; [exact (proj1 (proj2 (proj2 (proj2 (proj2
                   (names_never_empty unnamed Example1.os1))))) eq_refl eq_refl)|].
  split; [exact (proj1 (proj2 (proj2 (proj2 (proj2
                   (names_never_empty unnamed (unsetenv o "CONFIGOR_ENV"))))))
                   eq_refl eq_refl)|].
  exact (proj2 (proj2 (proj2 (proj2 (proj2 (proj2 (proj2
           (names_never_empty unnamed o))))))) eq_refl eq_refl).
Defined.

(** X21: a service built by [New] with auto-reload on never has a zero
    reload interval, keeps every flag that was set, and starts with no
    recorded modification time. *)
Theorem New_auto_reload_interval o config :
  AutoReload config = true ->
  AutoReloadInterval (config_of (New o config)) <> 0%Z
  /\ AutoReload (config_of (New o config)) = true
  /\ (Debug config = true -> Debug (config_of (New o config)) = true)
  /\ (Verbose config = true -> Verbose (config_of (New o config)) = true)
  /\ (Silent config = true -> Silent (config_of (New o config)) = true)
  /\ configModTimes (New o config) = ∅.
Proof.
  intros Hauto. unfold New. simpl. rewrite Hauto. simpl.
  repeat split.
  - destruct (AutoReloadInterval config =? 0)%Z eqn:E; [discriminate|].
    now apply Z.eqb_neq.
  - intros ->. now destruct (negb _).
  - intros ->. now destruct (negb _).
  - intros ->. now destruct (negb _).
Qed.

Lemma New_auto_reload_interval_witness :
  AutoReloadInterval (config_of (New Example1.os1 Example1.cfg)) = 1000000000%Z
  /\ AutoReloadInterval (config_of (New Example1.os1 Example1.cfg)) <> 0%Z.
Proof.
  split; [reflexivity|].
  exact (proj1 (New_auto_reload_interval Example1.os1 Example1.cfg eq_refl)).
Defined.

(** ** [Init] against [Load], through the facade *)

(** X22: whenever [Load] returns without error, [Init] on the same
    arguments and state returns without error too, with the same record in
    the caller's cell and the same recorded modification times. *)
Theorem Init_succeeds_where_Load_does yaml yamlStrict toml json o fuel t config requested
    st st1 :
  Load yaml yamlStrict toml json o fuel t config requested st = Ret st1 None ->
  exists st1',
    Init yaml yamlStrict toml json o fuel t config requested st = Ret st1' None
    /\ heap st1' = heap st1
    /\ service st1' = service st1.
Proof.
  unfold Load, Init, callWith. destruct config as [l|v]; [|discriminate].
  destruct (heap st !! l) as [v|]; [|discriminate].
  unfold loadWith.
  destruct (getConfigurationFiles _ _ _ _) as [[configFiles times] out]. simpl.
  destruct (processFiles _ _ _ _ _ _ _ _ _ _) as [[v1 out1] [e|]]; [discriminate|].
  destruct (bindTags yaml (os_Getenv o) Full fuel t v1 _) as [v2 [e|]| |] eqn:E;
    try discriminate.
  intros [= <-].
  rewrite bindTags_init_agrees by now rewrite E.
  rewrite E. eexists. split; [reflexivity|]. now split.
Qed.

Lemma Init_succeeds_where_Load_does_witness :
  exists st1',
    Init Fixture.yaml_Unmarshal Fixture.yaml_UnmarshalStrict Fixture.toml_Decode
      Fixture.json_Decode Example1.os1 3 Example1.T (PtrTo 0) ["config.yaml"] Example1.st0
    = Ret st1' None
    /\ heap st1' = heap Example1.st1
    /\ service st1' = service Example1.st1.
Proof.
  refine (Init_succeeds_where_Load_does Fixture.yaml_Unmarshal
            Fixture.yaml_UnmarshalStrict Fixture.toml_Decode Fixture.json_Decode
            Example1.os1 3 Example1.T (PtrTo 0) ["config.yaml"] Example1.st0
            Example1.st1 _).
  vm_compute. reflexivity.
Defined.

(** ** Sequences that already hold elements *)





(** ** Nested records and their prefix *)



(** ** What the resolver prints *)

(** X25: in silent mode the resolver prints no line about missing
    files; in watch mode, unless silent, it still prints "Failed to find
    configuration" for every candidate that resolves to no file at all,
    and nothing else. *)
Theorem resolver_diagnostics c o requested :
  (Silent c = true ->
   forall watchMode,
     (getConfigurationFiles c o watchMode requested).2
     = if negb watchMode && (Debug c || Verbose c)
       then [PrintCurrentEnvironment (GetEnvironment c o)] else [])
  /\ (Silent c = false ->
      (getConfigurationFiles c o true requested).2
      = flat_map (fun file => match candidateSources c o file with
                              | [] => [PrintNotFound file]
                              | _ => []
                              end) (rev requested)).
Proof.
  split.
  - intros Hs watchMode.
    destruct (resolver_run c o watchMode requested) as [m [-> _]]. simpl.
    assert (flat_map (candidateDiagnostics c o watchMode) (rev requested) = []) as ->.
    { induction (rev requested) as [|file l IH]; [reflexivity|]. simpl. rewrite IH.
      unfold candidateDiagnostics. rewrite Hs, andb_false_r. simpl.
      destruct (regular o file || regular o (envFileName file (GetEnvironment c o))),
        (regular o (envFileName file "example")); reflexivity. }
    now rewrite app_nil_r.
  - intros Hs.
    destruct (resolver_run c o true requested) as [m [-> _]]. simpl.
    induction (rev requested) as [|file l IH]; [reflexivity|]. simpl. rewrite IH.
    f_equal. unfold candidateDiagnostics, candidateSources. rewrite Hs.
    destruct (regular o file), (regular o (envFileName file (GetEnvironment c o))),
      (regular o (envFileName file "example")); reflexivity.
Qed.

Lemma resolver_diagnostics_witness :
  let c := {| Environment := "production"; ENVPrefix := ""; Debug := false;
              Verbose := false; Silent := false; AutoReload := true;
              AutoReloadInterval := 1; AutoReloadCallback := false;
              ErrorOnUnmatchedKeys := false |} in
  (getConfigurationFiles c Example1.os1 true ["config.yaml"; "missing.yaml"]).2
  = [PrintNotFound "missing.yaml"].
Proof.
  intros c.
  exact (proj2 (resolver_diagnostics c Example1.os1 ["config.yaml"; "missing.yaml"])
           eq_refl).
Defined.

(** ** The calls of a successful run *)

Lemma filter_isCall_prints l :
  forallb (fun e => negb (isCall e)) l = true -> List.filter isCall l = [].
Proof.
  induction l as [|e l IH]; simpl; [reflexivity|].
  intros H. apply andb_true_iff in H as [He Hl].
  destruct (isCall e); [discriminate|now apply IH].
Qed.

Lemma processFiles_calls yaml yamlStrict toml json c o t configFiles :
  forall config out config' out',
    processFiles yaml yamlStrict toml json c o t config configFiles out
    = (config', out', None) ->
    List.filter isCall out'
    = List.filter isCall out ++ map CallProcessFile configFiles.
Proof.
  induction configFiles as [|file rest IH]; intros config out config' out'; simpl.
  - intros [= _ <-]. now rewrite app_nil_r.
  - destruct (processFile _ _ _ _ _ _ _ _ _) as [config1 [e|]]; [discriminate|].
    intros H. rewrite (IH _ _ _ _ H), !List.filter_app. simpl.
    destruct (Debug c || Verbose c); simpl; now rewrite app_nil_r, <- app_assoc.
Qed.

(** X26: a run of [load] or [init] that returns no error and reports a
    change has called [processFile] once on every resolved file, in the
    resolver's order, and then the binder exactly once; it made no other
    call, and it recorded the resolver's modification times. *)
Theorem successful_run_calls yaml yamlStrict toml json b s o fuel t config watchMode
    requested config' modTimes printed :
  loadWith yaml yamlStrict toml json b s o fuel t config watchMode requested
  = Ret (config', modTimes, true, printed) None ->
  List.filter isCall printed
  = map CallProcessFile (getConfigurationFiles (config_of s) o watchMode requested).1.1
    ++ [CallBinder b (if String.eqb (getENVPrefix (config_of s) o) "-"
                      then [] else [getENVPrefix (config_of s) o])]
  /\ modTimes = (getConfigurationFiles (config_of s) o watchMode requested).1.2.
Proof.
  unfold loadWith.
  pose proof (resolver_prints (config_of s) o watchMode requested) as Hout.
  destruct (getConfigurationFiles (config_of s) o watchMode requested)
    as [[configFiles times] out]. simpl in *.
  destruct (watchMode && _ && _); [discriminate|].
  destruct (processFiles _ _ _ _ _ _ _ _ _ _) as [[c1 out1] [e|]] eqn:E; [discriminate|].
  destruct (bindTags _ _ _ _ _ _ _) as [c2 [e|]| |]; try discriminate.
  intros [= _ <- <-]. split; [|reflexivity].
  rewrite List.filter_app, (processFiles_calls _ _ _ _ _ _ _ _ _ _ _ _ E).
  rewrite (filter_isCall_prints _ Hout).
  cbn [app List.filter isCall].
  now rewrite (filter_isCall_prints _ (deferredPrint_prints _ _ _ _)).
Qed.

Lemma successful_run_calls_witness :
  List.filter isCall [CallProcessFile "config.yaml"; CallBinder Full []]
  = map CallProcessFile
      (getConfigurationFiles Example1.cfg Example1.os1 false ["config.yaml"]).1.1
    ++ [CallBinder Full []].
Proof.
  refine (proj1
    (successful_run_calls Fixture.yaml_Unmarshal Fixture.yaml_UnmarshalStrict
       Fixture.toml_Decode Fixture.json_Decode Full
       {| config_of := Example1.cfg; configModTimes := ∅ |} Example1.os1 3 Example1.T
       (VStruct [VInt 0]) false ["config.yaml"] (VStruct [VInt 80])
       {[ "config.yaml" := 10%Z ]} [CallProcessFile "config.yaml"; CallBinder Full []] _)).
  vm_compute. reflexivity.
Defined.
